(** * Dexter: the run/stream bridge and the LLM invocation layer

    A shallow embedding of [src/dexter/model.py], [src/dexter/server.py]
    and [src/dexter/utils/event_logger.py], and the properties of the
    specification that are decided by that code.

    Conventions.
    - A Python [str] is represented by its UTF-8 encoding, a Rocq [string]
      (a sequence of bytes).  Concatenation, equality, replacement of an
      ASCII pattern and JSON escaping act on the encoding exactly as
      Python acts on the code points.
    - A Python exception is a value of [pyexc]; code that can raise
      returns an [outcome].
    - External collaborators (the LLM provider, the task executor) are
      scripts: functions that say what each call does. *)

From Stdlib Require Import ZArith NArith QArith Qreduction Ascii String List Lia ZifyBool.
From stdpp Require Import base option list strings gmap functions pretty.

Set Warnings "-register-all".

Local Open Scope string_scope.
Local Open Scope list_scope.

(** ** Python strings *)

Module Str.

Abbreviation bytes := (list ascii).

Local Open Scope N_scope.

Definition to_bytes : string -> bytes := list_ascii_of_string.
Definition of_bytes : bytes -> string := string_of_list_ascii.

(** [str.__bool__]: a string is truthy when it is not empty. *)
Definition truthy (s : string) : bool :=
  match s with EmptyString => false | String _ _ => true end.

(** The ASCII characters [str.isspace] accepts: TAB, LF, VT, FF, CR,
    FS, GS, RS, US and the space. *)
Definition ascii_space (c : ascii) : bool :=
  let n := N_of_ascii c in
  ((9 <=? n) && (n <=? 13)) || ((28 <=? n) && (n <=? 32)).

(** The whitespace characters beyond ASCII, by their encodings: U+0085
    and U+00A0 (C2 85, C2 A0) take two bytes; U+1680 (E1 9A 80),
    U+2000..U+200A, U+2028, U+2029, U+202F (E2 80 80..8A, A8, A9, AF),
    U+205F (E2 81 9F) and U+3000 (E3 80 80) take three. *)
Definition space2 (c d : ascii) : bool :=
  (N_of_ascii c =? 194) && ((N_of_ascii d =? 133) || (N_of_ascii d =? 160)).

Definition space3 (c d e : ascii) : bool :=
  let c := N_of_ascii c in
  let d := N_of_ascii d in
  let e := N_of_ascii e in
  ((c =? 225) && (d =? 154) && (e =? 128))
  || ((c =? 226) && (d =? 128)
      && (((128 <=? e) && (e <=? 138)) || (e =? 168) || (e =? 169) || (e =? 175)))
  || ((c =? 226) && (d =? 129) && (e =? 159))
  || ((c =? 227) && (d =? 128) && (e =? 128)).

(** Dropping the leading whitespace characters, for a given reading of
    one, two and three bytes as a whitespace character. *)
Section DropSpaces.
Variable sp1 : ascii -> bool.
Variable sp2 : ascii -> ascii -> bool.
Variable sp3 : ascii -> ascii -> ascii -> bool.

Fixpoint drop_spaces (s : bytes) : bytes :=
  match s with
  | [] => []
  | c :: s1 =>
      if sp1 c then drop_spaces s1
      else match s1 with
           | d :: s2 =>
               if sp2 c d then drop_spaces s2
               else match s2 with
                    | e :: s3 => if sp3 c d e then drop_spaces s3 else s
                    | [] => s
                    end
           | [] => s
           end
  end.

(** The number of bytes of the whitespace character a text starts
    with, 0 when it starts with none. *)
Definition ws_len (s : bytes) : nat :=
  match s with
  | [] => 0%nat
  | c :: s1 =>
      if sp1 c then 1%nat
      else match s1 with
           | d :: s2 =>
               if sp2 c d then 2%nat
               else match s2 with
                    | e :: _ => if sp3 c d e then 3%nat else 0%nat
                    | [] => 0%nat
                    end
           | [] => 0%nat
           end
  end.
End DropSpaces.

(** [str.lstrip()] *)
Definition lstrip : bytes -> bytes := drop_spaces ascii_space space2 space3.

(** The same on the reversed encoding, where the last byte of a
    character comes first. *)
Definition lstrip_rev : bytes -> bytes :=
  drop_spaces ascii_space (fun c d => space2 d c) (fun c d e => space3 e d c).

(** [str.rstrip()] *)
Definition rstrip (s : bytes) : bytes := rev (lstrip_rev (rev s)).

(** [str.strip()] *)
Definition strip (s : string) : string :=
  of_bytes (rstrip (lstrip (to_bytes s))).

Definition lower_ascii (c : ascii) : ascii :=
  let n := N_of_ascii c in
  if (65 <=? n) && (n <=? 90) then ascii_of_N (n + 32) else c.

(** The encoding of the Kelvin sign U+212A (E2 84 AA), the one character
    beyond ASCII whose lower case is an ASCII letter, [k]. *)
Definition kelvin (c d e : ascii) : bool :=
  (N_of_ascii c =? 226) && (N_of_ascii d =? 132) && (N_of_ascii e =? 170).

(** [str.lower()] as far as a comparison with an ASCII literal can see
    it: the letters A-Z and the Kelvin sign are lowered.  Python maps the
    other cased characters beyond ASCII to characters beyond ASCII; they
    are left as they are. *)
Fixpoint lower_bytes (s : bytes) : bytes :=
  match s with
  | [] => []
  | c :: s1 =>
      match s1 with
      | d :: e :: s3 =>
          if kelvin c d e then "k"%char :: lower_bytes s3
          else lower_ascii c :: lower_bytes s1
      | _ => lower_ascii c :: lower_bytes s1
      end
  end.

Definition lower (s : string) : string := of_bytes (lower_bytes (to_bytes s)).

Fixpoint starts_with (p s : bytes) : bool :=
  match p, s with
  | [], _ => true
  | a :: p', b :: s' => Ascii.eqb a b && starts_with p' s'
  | _ :: _, [] => false
  end.

(** The scan of [str.replace] for a pattern that is not empty: from
    left to right, an occurrence is replaced and the scan goes on
    behind it.  [skip] counts the characters of the occurrence that
    are still to be passed over. *)
Fixpoint replace_go (old new : bytes) (skip : nat) (s : bytes) : bytes :=
  match s with
  | [] => []
  | c :: s' =>
      match skip with
      | S k => replace_go old new k s'
      | O =>
          if starts_with old s
          then new ++ replace_go old new (length old - 1) s'
          else c :: replace_go old new 0 s'
      end
  end.

(** [s.replace(old, new)]; an empty [old] matches between the
    characters. *)
Definition replace (s old new : string) : string :=
  match to_bytes old with
  | [] => of_bytes (to_bytes new ++ flat_map (fun c => c :: to_bytes new) (to_bytes s))
  | o => of_bytes (replace_go o (to_bytes new) 0 (to_bytes s))
  end.

(** A byte of a character beyond ASCII. *)
Definition non_ascii (c : ascii) : bool := 128 <=? N_of_ascii c.

(** A text of ASCII whitespace only. *)
Definition all_space (s : string) : bool := forallb ascii_space (to_bytes s).

(** A text with its ASCII letters in lower case: two texts with the
    same fold differ in the case of ASCII letters only. *)
Definition ascii_fold (s : string) : string :=
  of_bytes (map lower_ascii (to_bytes s)).

(** Whether [p] occurs in [s]. *)
Fixpoint contains (p s : bytes) : bool :=
  starts_with p s || match s with [] => false | _ :: s' => contains p s' end.

(** [p in s] *)
Definition occurs (p s : string) : bool := contains (to_bytes p) (to_bytes s).

(** [s.endswith(suffix)] *)
Definition endswith (s suffix : string) : bool :=
  starts_with (rev (to_bytes suffix)) (rev (to_bytes s)).

(** [s[:-n]] for a positive [n] *)
Definition drop_last (n : nat) (s : string) : string :=
  of_bytes (take (length (to_bytes s) - n) (to_bytes s)).

End Str.

(** ** JSON values and [json.dumps] *)

Module Json.

Local Open Scope N_scope.

(** The values [json.loads] returns and [json.dumps] accepts.  A Python
    [float] is identified by its [repr] (["1.5"], ["1e+16"], ["nan"],
    ["inf"], ["-inf"]); a [dict] is a list of entries in insertion order. *)
Inductive json :=
| JNull
| JBool (b : bool)
| JInt (z : Z)
| JFloat (repr : string)
| JStr (s : string)
| JList (l : list json)
| JDict (d : list (string * json)).

Abbreviation dict := (list (string * json)).

(** [d.get(key)] *)
Fixpoint get (key : string) (d : dict) : option json :=
  match d with
  | [] => None
  | (k, v) :: d' => if String.eqb k key then Some v else get key d'
  end.

(** [d[key] = v]: an existing key keeps its place. *)
Fixpoint set (key : string) (v : json) (d : dict) : dict :=
  match d with
  | [] => [(key, v)]
  | (k, v0) :: d' => if String.eqb k key then (k, v) :: d' else (k, v0) :: set key v d'
  end.

(** [bool(v)] *)
Definition truthy (v : json) : bool :=
  match v with
  | JNull => false
  | JBool b => b
  | JInt z => negb (z =? 0)%Z
  | JFloat r => negb (String.eqb r "0.0" || String.eqb r "-0.0")
  | JStr s => Str.truthy s
  | JList l => match l with [] => false | _ => true end
  | JDict d => match d with [] => false | _ => true end
  end.

(** The double quote, character 34. *)
Definition quote : ascii := ascii_of_N 34.

Definition hex_digit (n : N) : ascii :=
  if n <? 10 then ascii_of_N (48 + n) else ascii_of_N (87 + n).

(** ['\\u{0:04x}'.format(n)] *)
Definition u_escape (n : N) : Str.bytes :=
  ["\"%char; "u"%char;
   hex_digit (n / 4096 mod 16); hex_digit (n / 256 mod 16);
   hex_digit (n / 16 mod 16); hex_digit (n mod 16)].

(** [ESCAPE_DCT]: the replacement of a character that [ESCAPE] matches
    (the quote, the backslash and the control characters). *)
Definition escape_char (c : ascii) : Str.bytes :=
  let n := N_of_ascii c in
  if n =? 34 then ["\"%char; quote]
  else if n =? 92 then ["\"%char; "\"%char]
  else if n =? 10 then ["\"%char; "n"%char]
  else if n =? 13 then ["\"%char; "r"%char]
  else if n =? 9 then ["\"%char; "t"%char]
  else if n =? 8 then ["\"%char; "b"%char]
  else if n =? 12 then ["\"%char; "f"%char]
  else if n <? 32 then u_escape n
  else [c].

(** [ESCAPE_ASCII] also matches DEL and every character beyond ASCII,
    which become [\uXXXX], or a surrogate pair above U+FFFF. *)
Definition u_escape_code_point (n : N) : Str.bytes :=
  if n <? 65536 then u_escape n
  else let m := n - 65536 in
       u_escape (55296 + m / 1024) ++ u_escape (56320 + m mod 1024).

Definition low6 (c : ascii) : N := N_of_ascii c mod 64.

Fixpoint escape_ascii (s : Str.bytes) : Str.bytes :=
  match s with
  | [] => []
  | c :: s1 =>
      let n := N_of_ascii c in
      if n <? 127 then escape_char c ++ escape_ascii s1
      else if n =? 127 then u_escape n ++ escape_ascii s1
      else match s1 with
           | d :: s2 =>
               if n <? 224
               then u_escape_code_point (n mod 32 * 64 + low6 d) ++ escape_ascii s2
               else match s2 with
                    | e :: s3 =>
                        if n <? 240
                        then u_escape_code_point
                               (n mod 16 * 4096 + low6 d * 64 + low6 e)
                             ++ escape_ascii s3
                        else match s3 with
                             | f :: s4 =>
                                 u_escape_code_point
                                   (n mod 8 * 262144 + low6 d * 4096
                                    + low6 e * 64 + low6 f)
                                 ++ escape_ascii s4
                             | [] => []
                             end
                    | [] => []
                    end
           | [] => []
           end
  end.

(** [py_encode_basestring_ascii] and [py_encode_basestring] *)
Definition encode_basestring (ensure_ascii : bool) (s : string) : string :=
  let body := if ensure_ascii then escape_ascii (Str.to_bytes s)
              else flat_map escape_char (Str.to_bytes s) in
  String quote (Str.of_bytes body +:+ String quote EmptyString).

(** [floatstr] with [allow_nan] *)
Definition floatstr (r : string) : string :=
  if String.eqb r "nan" then "NaN"
  else if String.eqb r "inf" then "Infinity"
  else if String.eqb r "-inf" then "-Infinity"
  else r.

(** [separator.join(parts)] *)
Fixpoint join (separator : string) (parts : list string) : string :=
  match parts with
  | [] => EmptyString
  | [x] => x
  | x :: rest => x +:+ separator +:+ join separator rest
  end.

(** [json.dumps(v, ensure_ascii=...)] with the default separators
    [", "] and [": "]. *)
Fixpoint dumps (ensure_ascii : bool) (v : json) : string :=
  match v with
  | JNull => "null"
  | JBool true => "true"
  | JBool false => "false"
  | JInt z => pretty z
  | JFloat r => floatstr r
  | JStr s => encode_basestring ensure_ascii s
  | JList l => "[" +:+ join ", " (map (dumps ensure_ascii) l) +:+ "]"
  | JDict d =>
      "{" +:+ join ", "
               (map (fun kv => encode_basestring ensure_ascii (fst kv)
                               +:+ ": " +:+ dumps ensure_ascii (snd kv)) d)
          +:+ "}"
  end.

(** *** [json.loads]

    The decoder of the standard library, for a [str]: a scanner that
    cuts the text into tokens and a parser that builds the value, each
    a machine that reads its input once.  [None] stands for a raised
    [JSONDecodeError].  The limits of the interpreter (recursion depth,
    digits of an integer) are not modelled. *)

Inductive token :=
| TLBrace | TRBrace | TLBracket | TRBracket | TComma | TColon
| TString (s : Str.bytes)
| TAtom (a : Str.bytes).

(** The encoding of a code point (a lone surrogate takes three bytes). *)
Definition utf8 (n : N) : Str.bytes :=
  if n <? 128 then [ascii_of_N n]
  else if n <? 2048 then [ascii_of_N (192 + n / 64); ascii_of_N (128 + n mod 64)]
  else if n <? 65536 then
    [ascii_of_N (224 + n / 4096); ascii_of_N (128 + n / 64 mod 64);
     ascii_of_N (128 + n mod 64)]
  else
    [ascii_of_N (240 + n / 262144); ascii_of_N (128 + n / 4096 mod 64);
     ascii_of_N (128 + n / 64 mod 64); ascii_of_N (128 + n mod 64)].

Definition hex_value (c : ascii) : option N :=
  let n := N_of_ascii c in
  if (48 <=? n) && (n <=? 57) then Some (n - 48)
  else if (97 <=? n) && (n <=? 102) then Some (n - 87)
  else if (65 <=? n) && (n <=? 70) then Some (n - 55)
  else None.

Definition is_digit (c : ascii) : bool :=
  let n := N_of_ascii c in (48 <=? n) && (n <=? 57).

(** The characters of numbers and of the literal names. *)
Definition atom_char (c : ascii) : bool :=
  let n := N_of_ascii c in
  is_digit c || ((65 <=? n) && (n <=? 90)) || ((97 <=? n) && (n <=? 122))
  || (n =? 43) || (n =? 45) || (n =? 46).

Definition json_space (c : ascii) : bool :=
  let n := N_of_ascii c in (n =? 32) || (n =? 9) || (n =? 10) || (n =? 13).

(** Where the scanner is.  Inside a string it holds the characters read
    so far, last first, and a high surrogate from a [\uXXXX] escape that
    waits for its low surrogate. *)
Inductive scan :=
| Idle
| InAtom (acc : Str.bytes)
| InString (acc : Str.bytes) (hi : option N)
| InEscape (acc : Str.bytes) (hi : option N)
| InHex (acc : Str.bytes) (hi : option N) (digits : list N).

Definition flush (acc : Str.bytes) (hi : option N) : Str.bytes :=
  match hi with
  | Some h => rev (utf8 h) ++ acc
  | None => acc
  end.

Definition scan_idle (c : ascii) : option (scan * list token) :=
  let n := N_of_ascii c in
  if json_space c then Some (Idle, [])
  else if n =? 123 then Some (Idle, [TLBrace])
  else if n =? 125 then Some (Idle, [TRBrace])
  else if n =? 91 then Some (Idle, [TLBracket])
  else if n =? 93 then Some (Idle, [TRBracket])
  else if n =? 44 then Some (Idle, [TComma])
  else if n =? 58 then Some (Idle, [TColon])
  else if n =? 34 then Some (InString [] None, [])
  else if atom_char c then Some (InAtom [c], [])
  else None.

(** A completed [\uXXXX] escape with value [u]. *)
Definition scan_code_unit (acc : Str.bytes) (hi : option N) (u : N) : scan :=
  let high := (55296 <=? u) && (u <=? 56319) in
  let low := (56320 <=? u) && (u <=? 57343) in
  match hi with
  | Some h =>
      if low
      then InString (rev (utf8 (65536 + (h - 55296) * 1024 + (u - 56320))) ++ acc) None
      else if high then InString (flush acc hi) (Some u)
      else InString (rev (utf8 u) ++ flush acc hi) None
  | None =>
      if high then InString acc (Some u) else InString (rev (utf8 u) ++ acc) None
  end.

Definition scan_step (st : scan) (c : ascii) : option (scan * list token) :=
  let n := N_of_ascii c in
  match st with
  | Idle => scan_idle c
  | InAtom acc =>
      if atom_char c then Some (InAtom (c :: acc), [])
      else '(st', ts) ← scan_idle c; Some (st', TAtom (rev acc) :: ts)
  | InString acc hi =>
      if n =? 34 then Some (Idle, [TString (rev (flush acc hi))])
      else if n =? 92 then Some (InEscape acc hi, [])
      else if n <? 32 then None
      else Some (InString (c :: flush acc hi) None, [])
  | InEscape acc hi =>
      let plain (b : N) := Some (InString (ascii_of_N b :: flush acc hi) None, []) in
      if n =? 117 then Some (InHex acc hi [], [])
      else if (n =? 34) || (n =? 92) || (n =? 47) then plain n
      else if n =? 98 then plain 8
      else if n =? 102 then plain 12
      else if n =? 110 then plain 10
      else if n =? 114 then plain 13
      else if n =? 116 then plain 9
      else None
  | InHex acc hi digits =>
      h ← hex_value c;
      match digits with
      | [d1; d2; d3] =>
          Some (scan_code_unit acc hi (d1 * 4096 + d2 * 256 + d3 * 16 + h), [])
      | _ => Some (InHex acc hi (digits ++ [h]), [])
      end
  end.

Fixpoint scan_all (st : scan) (s : Str.bytes) : option (list token) :=
  match s with
  | [] =>
      match st with
      | Idle => Some []
      | InAtom acc => Some [TAtom (rev acc)]
      | _ => None
      end
  | c :: s' =>
      '(st', ts) ← scan_step st c;
      rest ← scan_all st' s';
      Some (ts ++ rest)
  end.

(** [NUMBER_RE]: an optional minus sign; a zero, or digits that do not
    start with a zero; then optionally a point and digits; then
    optionally [e] or [E], an optional sign and digits. *)
Fixpoint digits_value (acc : Z) (s : Str.bytes) : Z :=
  match s with
  | [] => acc
  | c :: s' => digits_value (10 * acc + Z.of_N (N_of_ascii c - 48)) s'
  end.

(** The digits a text starts with, and the rest. *)
Fixpoint digits_of (s : Str.bytes) : Str.bytes * Str.bytes :=
  match s with
  | c :: s' =>
      if is_digit c then let '(ds, rest) := digits_of s' in (c :: ds, rest)
      else ([], s)
  | [] => ([], [])
  end.

Definition is_exponent (s : Str.bytes) : bool :=
  match s with
  | [] => true
  | e :: s1 =>
      ((N_of_ascii e =? 101) || (N_of_ascii e =? 69))
      && match s1 with
         | [] => false
         | g :: s2 =>
             if (N_of_ascii g =? 43) || (N_of_ascii g =? 45)
             then match s2 with [] => false | _ => forallb is_digit s2 end
             else forallb is_digit s1
         end
  end.

Definition is_fraction_exponent (s : Str.bytes) : bool :=
  match s with
  | c :: s1 =>
      if N_of_ascii c =? 46 then
        match digits_of s1 with
        | ([], _) => false
        | (_, rest) => is_exponent rest
        end
      else is_exponent s
  | [] => true
  end.

(** The number an atom spells: an [int] without fraction and exponent,
    else the [float] that [float_] makes of the text. *)
Definition number (float_ : string -> string) (a : Str.bytes) : option json :=
  let '(negative, body) :=
    match a with
    | c :: a' => if N_of_ascii c =? 45 then (true, a') else (false, a)
    | [] => (false, a)
    end in
  let '(int_part, rest) := digits_of body in
  let int_ok :=
    match int_part with
    | [] => false
    | c :: more => negb (N_of_ascii c =? 48) || match more with [] => true | _ => false end
    end in
  if int_ok && is_fraction_exponent rest then
    match rest with
    | [] => Some (JInt (if negative then - digits_value 0 int_part
                        else digits_value 0 int_part)%Z)
    | _ => Some (JFloat (float_ (Str.of_bytes a)))
    end
  else None.

Definition atom (float_ : string -> string) (a : Str.bytes) : option json :=
  let text := Str.of_bytes a in
  if String.eqb text "null" then Some JNull
  else if String.eqb text "true" then Some (JBool true)
  else if String.eqb text "false" then Some (JBool false)
  else if String.eqb text "NaN" then Some (JFloat "nan")
  else if String.eqb text "Infinity" then Some (JFloat "inf")
  else if String.eqb text "-Infinity" then Some (JFloat "-inf")
  else number float_ a.

(** The containers that are open: a list with its items, last first,
    or an object with its entries and the key that waits for a value. *)
Inductive open_ :=
| OpenList (items : list json)
| OpenDict (d : dict) (key : option string).

(** What the parser can accept next. *)
Inductive expect :=
| Value
| ValueOrClose
| KeyOrClose
| Key
| Colon
| CommaOrClose
| Complete (v : json).

Definition put (v : json) (stack : list open_) : option (list open_ * expect) :=
  match stack with
  | [] => Some ([], Complete v)
  | OpenList items :: st => Some (OpenList (v :: items) :: st, CommaOrClose)
  | OpenDict d (Some k) :: st => Some (OpenDict (set k v d) None :: st, CommaOrClose)
  | OpenDict _ None :: _ => None
  end.

Definition parse_value (float_ : string -> string) (t : token)
    (stack : list open_) : option (list open_ * expect) :=
  match t with
  | TString s => put (JStr (Str.of_bytes s)) stack
  | TAtom a => v ← atom float_ a; put v stack
  | TLBracket => Some (OpenList [] :: stack, ValueOrClose)
  | TLBrace => Some (OpenDict [] None :: stack, KeyOrClose)
  | _ => None
  end.

Definition parse_key (t : token) (stack : list open_)
    : option (list open_ * expect) :=
  match t, stack with
  | TString k, OpenDict d None :: st =>
      Some (OpenDict d (Some (Str.of_bytes k)) :: st, Colon)
  | _, _ => None
  end.

Definition parse_step (float_ : string -> string) (state : list open_ * expect)
    (t : token) : option (list open_ * expect) :=
  let '(stack, e) := state in
  match e with
  | Value => parse_value float_ t stack
  | ValueOrClose =>
      match t, stack with
      | TRBracket, OpenList _ :: st => put (JList []) st
      | _, _ => parse_value float_ t stack
      end
  | KeyOrClose =>
      match t, stack with
      | TRBrace, OpenDict d None :: st => put (JDict d) st
      | _, _ => parse_key t stack
      end
  | Key => parse_key t stack
  | Colon => match t with TColon => Some (stack, Value) | _ => None end
  | CommaOrClose =>
      match t, stack with
      | TComma, OpenList _ :: _ => Some (stack, Value)
      | TComma, OpenDict _ None :: _ => Some (stack, Key)
      | TRBracket, OpenList items :: st => put (JList (rev items)) st
      | TRBrace, OpenDict d None :: st => put (JDict d) st
      | _, _ => None
      end
  | Complete _ => None
  end.

Fixpoint parse_all (float_ : string -> string) (state : list open_ * expect)
    (ts : list token) : option json :=
  match ts with
  | [] => match state with ([], Complete v) => Some v | _ => None end
  | t :: ts' => state' ← parse_step float_ state t; parse_all float_ state' ts'
  end.

(** [json.loads(s)]; [float_] gives the [repr] of the [float] that a
    number text with a fraction or an exponent denotes. *)
Definition loads (float_ : string -> string) (s : string) : option json :=
  ts ← scan_all Idle (Str.to_bytes s);
  parse_all float_ ([], Value) ts.

(** *** Vocabulary of the properties *)

(** The texts of a value in the order in which [dumps] writes them: the
    keys, the strings and the spellings of the floats. *)
Fixpoint texts (v : json) : Str.bytes :=
  match v with
  | JStr s => Str.to_bytes s
  | JFloat r => Str.to_bytes (floatstr r)
  | JList l => flat_map texts l
  | JDict d => flat_map (fun kv => Str.to_bytes (fst kv) ++ texts (snd kv)) d
  | _ => []
  end.

(** The bytes of a text that belong to characters beyond ASCII. *)
Definition beyond_ascii (s : string) : Str.bytes :=
  List.filter Str.non_ascii (Str.to_bytes s).

End Json.
Export Json(json(..)).

(** ** Exceptions *)

(** The classes of exception the code tells apart.  [isinstance] is
    modelled by the class: [APIConnectionError] stands for
    [openai.APIConnectionError] and its subclasses, [OtherException] for
    every other subclass of [Exception]. *)
Inductive exc_class :=
| APIConnectionError
| TypeError
| OtherException (name : string).

(** A raised instance of [Exception]: its class and [str(exc)].  The
    signals outside [Exception] ([KeyboardInterrupt], [SystemExit],
    [GeneratorExit], [CancelledError]) are no values of this type; the
    closing of a generator has its own model in [Server.stream_loop]. *)
Record pyexc := Exc { exc_class_of : exc_class; exc_str : string }.

Inductive outcome (A : Type) :=
| Returns (a : A)
| Raises (e : pyexc).
Arguments Returns {A} a.
Arguments Raises {A} e.

(** ** model.py *)

Module Model.

Definition getenv (env : gmap string string) (key default_ : string) : string :=
  default default_ (env !! key).

Definition is_APIConnectionError (e : pyexc) : bool :=
  match exc_class_of e with APIConnectionError => true | _ => false end.

(** What the file does to the world: calls of [chain.invoke] and calls
    of [time.sleep] (seconds), in order. *)
Record world := World { invocations : nat; slept : list Q }.

Definition fresh : world := World 0 [].

(** [0.5 * (2 ** attempt)], in lowest terms.  The values are dyadic, so
    the floating-point product is exact. *)
Definition backoff (attempt : nat) : Q :=
  Qred (0.5 * 2 ^ Z.of_nat attempt).

Section CallLLM.
Context {Schema Tool Response : Type}.

(** [dexter.prompts.DEFAULT_SYSTEM_PROMPT], a constant of another
    module: any text. *)
Variable DEFAULT_SYSTEM_PROMPT : string.

(** What [runnable] is bound to. *)
Inductive runnable :=
| Llm
| With_structured_output (schema : Schema) (method : string)
| Bind_tools (tools : list Tool).

(** [prompt_template | runnable] *)
Record chain := Chain { messages : list (string * string); target : runnable }.

(** The provider: what [chain.invoke({"prompt": prompt})] does, given
    the number of invocations made before. *)
Variable invoke : chain -> string -> nat -> outcome Response.

(** The first [k] invocations fail with a connection error. *)
Definition transient_failures (c : chain) (prompt : string) (k : nat) : bool :=
  forallb (fun i => match invoke c prompt i with
                    | Raises e => is_APIConnectionError e
                    | Returns _ => false
                    end) (seq 0 k).

Definition final_system_prompt (system_prompt : option string) : string :=
  match system_prompt with
  | Some s => if Str.truthy s then s else DEFAULT_SYSTEM_PROMPT
  | None => DEFAULT_SYSTEM_PROMPT
  end.

Definition prompt_template (system_prompt : option string) : list (string * string) :=
  [("system", final_system_prompt system_prompt); ("user", "{prompt}")].

(** Lines 36-50: the choice of [runnable]. *)
Definition select_runnable (env : gmap string string)
    (output_schema : option Schema) (tools : option (list Tool)) : runnable :=
  match output_schema with
  | Some schema =>
      let _method :=
        Str.lower (Str.strip
          (getenv env "DEXTER_LLM_STRUCTURED_OUTPUT_METHOD" "function_calling")) in
      if String.eqb _method "none" then Llm
      else if String.eqb _method "function_calling" || String.eqb _method "json_schema"
           then With_structured_output schema _method
           else With_structured_output schema "function_calling"
  | None =>
      match tools with
      | Some (t :: ts) =>
          let _tool_bind :=
            Str.lower (Str.strip (getenv env "DEXTER_LLM_TOOL_BIND" "bind")) in
          if String.eqb _tool_bind "bind" then Bind_tools (t :: ts) else Llm
      | _ => Llm
      end
  end.

(** Lines 55-61: [for attempt in range(3)].  A loop that ends without
    [return] or [raise] makes the function return [None]. *)
Fixpoint retry (c : chain) (prompt : string) (attempts : list nat) (w : world)
    : outcome (option Response) * world :=
  match attempts with
  | [] => (Returns None, w)
  | attempt :: rest =>
      let w1 := World (S (invocations w)) (slept w) in
      match invoke c prompt (invocations w) with
      | Returns r => (Returns (Some r), w1)
      | Raises e =>
          if is_APIConnectionError e then
            if Nat.eqb attempt 2 then (Raises e, w1)
            else retry c prompt rest
                   (World (invocations w1) (slept w1 ++ [backoff attempt]))
          else (Raises e, w1)
      end
  end.

Definition call_llm (env : gmap string string) (prompt : string)
    (system_prompt : option string) (output_schema : option Schema)
    (tools : option (list Tool)) (w : world)
    : outcome (option Response) * world :=
  let c := Chain (prompt_template system_prompt)
                 (select_runnable env output_schema tools) in
  retry c prompt (seq 0 3) w.

End CallLLM.

End Model.

(** ** utils/event_logger.py *)

Module EventLogger.
Import Json.

Abbreviation EventPayload := dict.

(** The logger ([self.log]) and the world its [emit] callback acts on. *)
Record state (W : Type) := State { log : list string; world : W }.
Arguments State {W} log world.
Arguments log {W} s.
Arguments world {W} s.

(** The calls a user of the logger can make.  [Progress] is a [with]
    block: the calls made inside it, and the exception that leaves it,
    if one does. *)
Inductive call :=
| Log (msg : string)
| Header (msg : string)
| UserQuery (query : string)
| TaskList (tasks : list dict)
| TaskStart (task_desc : string)
| TaskDone (task_desc : string)
| ToolRun (tool result : string)
| Risky (tool input_str : string)
| Summary (summary : string)
| Progress (message success_message : string) (body : list call)
           (raised : option pyexc).

Section Methods.
Context {W : Type}.

(** [self.emit], the callback given to the constructor. *)
Variable emit : EventPayload -> W -> W.

(** [json.loads] of the standard library: the value decoded from a
    text, or [None] when it raises (the exception is caught on the
    spot and dropped). *)
Variable json_loads : string -> option json.

Definition do_emit (payload : EventPayload) (st : state W) : state W :=
  State (log st) (emit payload (world st)).

Definition _log (msg : string) (st : state W) : state W :=
  do_emit [("type", JStr "log"); ("message", JStr msg)]
          (State (log st ++ [msg]) (world st)).

Definition log_header (msg : string) : state W -> state W :=
  do_emit [("type", JStr "header"); ("message", JStr msg)].

Definition log_user_query (query : string) : state W -> state W :=
  do_emit [("type", JStr "user_query"); ("query", JStr query)].

Definition log_task_list (tasks : list dict) : state W -> state W :=
  let normalized :=
    map (fun task =>
           set "done" (JBool (truthy (default (JBool false) (get "done" task)))) task)
        tasks in
  do_emit [("type", JStr "task_list"); ("tasks", JList (map JDict normalized))].

Definition log_task_start (task_desc : string) : state W -> state W :=
  do_emit [("type", JStr "task_start"); ("task", JStr task_desc)].

Definition log_task_done (task_desc : string) : state W -> state W :=
  do_emit [("type", JStr "task_done"); ("task", JStr task_desc)].

Definition tool_run_payload (tool result : string) : EventPayload :=
  let payload := [("type", JStr "tool_run"); ("tool", JStr tool)] in
  if Str.truthy result then
    let parsed :=
      match json_loads result with
      | Some v => v
      | None => JNull
      end in
    set "result" (match parsed with JNull => JStr result | v => v end) payload
  else payload.

Definition log_tool_run (tool result : string) : state W -> state W :=
  do_emit (tool_run_payload tool result).

Definition log_risky (tool input_str : string) : state W -> state W :=
  do_emit [("type", JStr "warning"); ("tool", JStr tool); ("input", JStr input_str);
           ("message", JStr ("Risky action " +:+ tool +:+ "(" +:+ input_str
                             +:+ ") — auto-confirmed"))].

Definition log_summary (summary : string) : state W -> state W :=
  do_emit [("type", JStr "answer"); ("answer", JStr summary)].

Definition completed (message success_message : string) : string :=
  if Str.truthy success_message then success_message
  else Str.replace message "..." " ✓".

(** [with self.progress(message, success_message): body] *)
Definition progress (message success_message : string)
    (body : state W -> outcome unit * state W) (st : state W)
    : outcome unit * state W :=
  let st1 := do_emit [("type", JStr "progress"); ("status", JStr "start");
                      ("message", JStr message)] st in
  match body st1 with
  | (Returns _, st2) =>
      (Returns tt,
       do_emit [("type", JStr "progress"); ("status", JStr "complete");
                ("message", JStr (completed message success_message))] st2)
  | (Raises exc, st2) =>
      (Raises exc,
       do_emit [("type", JStr "progress"); ("status", JStr "error");
                ("message", JStr (message +:+ " failed: " +:+ exc_str exc))] st2)
  end.

(** A user's calls, one after the other. *)
Fixpoint run_call (c : call) (st : state W) : state W :=
  match c with
  | Log msg => _log msg st
  | Header msg => log_header msg st
  | UserQuery query => log_user_query query st
  | TaskList tasks => log_task_list tasks st
  | TaskStart task_desc => log_task_start task_desc st
  | TaskDone task_desc => log_task_done task_desc st
  | ToolRun tool result => log_tool_run tool result st
  | Risky tool input_str => log_risky tool input_str st
  | Summary summary => log_summary summary st
  | Progress message success_message body raised =>
      snd (progress message success_message
             (fun st1 =>
                (match raised with Some exc => Raises exc | None => Returns tt end,
                 fold_left (fun st2 c' => run_call c' st2) body st1))
             st)
  end.

Definition run_calls (calls : list call) (st : state W) : state W :=
  fold_left (fun st2 c => run_call c st2) calls st.

End Methods.

(** *** Vocabulary of the properties *)

(** An [emit] that keeps what it is given, in order. *)
Definition trace (payload : EventPayload) (w : list EventPayload) : list EventPayload :=
  w ++ [payload].

(** The payloads a call makes the logger emit, in order. *)
Definition events (json_loads : string -> option json) (c : call) : list EventPayload :=
  world (run_call trace json_loads c (State [] [])).

Definition events_of (json_loads : string -> option json) (calls : list call)
    : list EventPayload :=
  world (run_calls trace json_loads calls (State [] [])).

(** [emit] applied to payloads one after the other. *)
Definition emit_all {W} (emit : EventPayload -> W -> W) (payloads : list EventPayload)
    (w : W) : W :=
  fold_left (fun w p => emit p w) payloads w.

(** The completion message as the specification words it: the success
    message when one is given; else the message with an ellipsis at its
    end replaced by the completion mark; else the message itself. *)
Definition completed_as_stated (message success_message : string) : string :=
  if Str.truthy success_message then success_message
  else if Str.endswith message "..." then Str.drop_last 3 message +:+ " ✓"
  else message.

End EventLogger.

(** ** server.py *)

Module Server.
Import Json.

Record RunRequest := {
  query : string;
  max_steps : option Z;
  max_steps_per_task : option Z
}.

(** [x or d] for an [Optional[int]]: [None] and [0] are falsy. *)
Definition int_or (x : option Z) (d : Z) : Z :=
  match x with
  | Some n => if (n =? 0)%Z then d else n
  | None => d
  end.

(** An [AgentSession] object.  [loop] is the scheduler the queue
    belongs to; [emit] hands the [put] over to it, so the queue receives
    the payloads in the order of the calls. *)
Record AgentSession := {
  queue : list dict;
  finished : bool;
  error : option string
}.

Definition new_session : AgentSession :=
  {| queue := []; finished := false; error := None |}.

(** What can be done to a session object from outside. *)
Inductive session_op :=
| Emit (payload : dict)        (* session.emit(payload) *)
| SetFinished.                 (* session.finished.set() *)

Definition apply_op (op : session_op) (s : AgentSession) : AgentSession :=
  match op with
  | Emit payload =>
      {| queue := queue s ++ [payload]; finished := finished s; error := error s |}
  | SetFinished =>
      {| queue := queue s; finished := true; error := error s |}
  end.

Definition apply_ops (ops : list session_op) (s : AgentSession) : AgentSession :=
  fold_left (fun s op => apply_op op s) ops s.

(** *** [AgentSession.stream] *)

(** A frame [{"data": ...}]. *)
Record frame := Frame { data : string }.

(** How a run of the generator ends.  [Waiting] is no end: the
    generator is suspended in [queue.get()] and the queue is empty. *)
Inductive exit :=
| Stopped                      (* [break], then StopAsyncIteration *)
| Cancelled                    (* closed or cancelled while suspended *)
| Failed (e : pyexc)           (* an exception left the generator *)
| Waiting.

(** [payload.get("type") in {"done", "error"}].  A list or a dict
    cannot be hashed, so the membership test raises. *)
Definition is_terminal (payload : dict) : outcome bool :=
  match get "type" payload with
  | Some (JStr t) => Returns (String.eqb t "done" || String.eqb t "error")
  | Some (JList _) => Raises (Exc TypeError "unhashable type: 'list'")
  | Some (JDict _) => Raises (Exc TypeError "unhashable type: 'dict'")
  | _ => Returns false
  end.

(** The loop of [stream], run against the payloads in the queue.
    [demand] is the consumer: [None] keeps asking for the next frame,
    [Some k] takes [k] frames and then goes away, which closes the
    generator where it is suspended (at the [yield], or in
    [queue.get()] for [k = 0]).  The result is the frames yielded, the
    payloads left in the queue and the way the run ends. *)
Fixpoint stream_loop (demand : option nat) (q : list dict)
    : list frame * list dict * exit :=
  match demand with
  | Some O => ([], q, Cancelled)
  | _ =>
      match q with
      | [] => ([], [], Waiting)
      | payload :: q' =>
          let fr := Frame (dumps false (JDict payload)) in
          let demand' := Nat.pred <$> demand in
          match demand' with
          | Some O => ([fr], q', Cancelled)
          | _ =>
              match is_terminal payload with
              | Raises e => ([fr], q', Failed e)
              | Returns true => ([fr], q', Stopped)
              | Returns false =>
                  let '(frs, q'', ex) := stream_loop demand' q' in
                  (fr :: frs, q'', ex)
              end
          end
      end
  end.

(** [finally: self.finished.set()] runs on every exit. *)
Definition stream (demand : option nat) (s : AgentSession)
    : list frame * AgentSession * exit :=
  let '(frs, q, ex) := stream_loop demand (queue s) in
  let fin := match ex with Waiting => finished s | _ => true end in
  (frs, {| queue := q; finished := fin; error := error s |}, ex).

(** *** [DexterServer] *)

(** [self.sessions] maps a run id to a session object.  The objects
    live in [objects], by reference; [allocated] counts the references
    in use.  The worker and the stream of a run hold the reference, so
    they share the object with the registry and keep it when the entry
    is removed. *)
Record DexterServer := {
  sessions : gmap string nat;
  objects : nat -> AgentSession;
  allocated : nat
}.

Definition on_session (r : nat) (f : AgentSession -> AgentSession)
    (σ : DexterServer) : DexterServer :=
  {| sessions := sessions σ; objects := alter f r (objects σ);
     allocated := allocated σ |}.

(** [self.sessions.pop(run_id, None)] *)
Definition sessions_pop (run_id : string) (σ : DexterServer) : DexterServer :=
  {| sessions := delete run_id (sessions σ); objects := objects σ;
     allocated := allocated σ |}.

Section Run.

(** The task executor [dexter.agent.Agent], an external collaborator
    used through its interface: given [max_steps], [max_steps_per_task] and the
    query, the calls it makes on its logger and what construction and
    [run] end with. *)
Variable Agent : Z -> Z -> string -> list EventLogger.call * outcome string.

Variable json_loads : string -> option json.

(** The arguments the executor is constructed with. *)
Definition agent_args (request : RunRequest) : Z * Z :=
  (int_or (max_steps request) 20, int_or (max_steps_per_task request) 5).

(** [worker]: what it does to the session, in order, and how it
    ends. *)
Definition worker (request : RunRequest) : outcome unit * list session_op :=
  let emit (payload : dict) (ops : list session_op) := ops ++ [Emit payload] in
  let '(calls, result) :=
    Agent (fst (agent_args request)) (snd (agent_args request)) (query request) in
  let st := EventLogger.run_calls emit json_loads calls (EventLogger.State [] []) in
  let ops :=
    match result with
    | Returns answer =>
        emit [("type", JStr "done"); ("answer", JStr answer)] (EventLogger.world st)
    | Raises exc =>
        emit [("type", JStr "error"); ("message", JStr (exc_str exc))]
             (EventLogger.world st)
    end in
  (Returns tt, ops ++ [SetFinished]).

(** [run_agent]: [run_id] is the fresh [str(uuid4())].  The worker is
    handed to the executor pool and the response returns at once. *)
Definition run_agent (run_id : string) (σ : DexterServer) : nat * DexterServer :=
  let r := allocated σ in
  (r, {| sessions := <[run_id := r]> (sessions σ);
         objects := <[r := new_session]> (objects σ);
         allocated := S r |}).

Definition run_worker (request : RunRequest) (r : nat) (σ : DexterServer)
    : outcome unit * DexterServer :=
  let '(res, ops) := worker request in
  (res, on_session r (apply_ops ops) σ).

End Run.

(** *** [stream_events] *)

Inductive response :=
| HTTPException (status_code : Z) (detail : string)
| EventSourceResponse (run_id : string) (session : nat).

Definition stream_events (run_id : string) (σ : DexterServer) : response :=
  match sessions σ !! run_id with
  | None => HTTPException 404 "Run not found"
  | Some session => EventSourceResponse run_id session
  end.

(** What [event_generator] does, in order. *)
Inductive gen_action :=
| Yield (event : frame)
| Pop (run_id : string).

(** [event_generator]: the frames of [session.stream()] are passed on;
    the statement behind the loop is reached when the loop ends, that
    is when the stream stops by itself. *)
Definition event_generator (run_id : string) (session : nat) (demand : option nat)
    (σ : DexterServer) : list gen_action * DexterServer * exit :=
  let '(frs, s', ex) := stream demand (objects σ session) in
  let σ1 := on_session session (fun _ => s') σ in
  match ex with
  | Stopped => (map Yield frs ++ [Pop run_id], sessions_pop run_id σ1, Stopped)
  | _ => (map Yield frs, σ1, ex)
  end.

(** *** Vocabulary of the properties *)

(** The frame of an event. *)
Definition frame_of (payload : dict) : frame := Frame (dumps false (JDict payload)).

(** An event of type [done] or [error]. *)
Definition terminal (payload : dict) : bool :=
  match is_terminal payload with
  | Returns b => b
  | Raises _ => false
  end.

(** The events a run of the stream takes from the queue. *)
Definition yielded (demand : option nat) (s : AgentSession) : list dict :=
  take (length (fst (fst (stream demand s)))) (queue s).

(** The arguments of the executor as the specification words them: the
    defaults stand in only for values that were not supplied. *)
Definition agent_args_as_stated (request : RunRequest) : Z * Z :=
  (default 20%Z (max_steps request), default 5%Z (max_steps_per_task request)).

(** The frames among the actions of a generator. *)
Definition frames_of (actions : list gen_action) : list frame :=
  omap (fun a => match a with Yield f => Some f | Pop _ => None end) actions.

Abbreviation non_terminal := (fun p : dict => is_terminal p = Returns false).

(** What a run of the loop has taken from the queue, by the way it
    ends. *)
Definition shape (demand : option nat) (evs rest : list dict) (ex : exit) : Prop :=
  match ex with
  | Stopped =>
      exists pre t, evs = pre ++ [t] /\ Forall non_terminal pre
                    /\ is_terminal t = Returns true
  | Failed e =>
      exists pre t, evs = pre ++ [t] /\ Forall non_terminal pre
                    /\ is_terminal t = Raises e
  | Waiting => Forall non_terminal evs /\ rest = []
  | Cancelled =>
      demand = Some (length evs)
      /\ exists pre, Forall non_terminal pre /\ (evs = pre \/ exists t, evs = pre ++ [t])
  end.

(** The event a worker ends with. *)
Definition terminal_event (result : outcome string) : dict :=
  match result with
  | Returns answer => [("type", JStr "done"); ("answer", JStr answer)]
  | Raises exc => [("type", JStr "error"); ("message", JStr (exc_str exc))]
  end.

End Server.

(** ** Sample data

    Environments, providers and failures that the properties below are
    tried on. *)

Module Samples.
Import Model Json Server EventLogger.
Definition env_of (key value : string) : gmap string string := {[ key := value ]}.
Definition provider (script : list (outcome string))
    : @chain string string -> string -> nat -> outcome string :=
  fun _ _ i => default (Returns "late") (script !! i).
Definition timeout : pyexc := Exc APIConnectionError "Connection error.".
Definition refused : pyexc := Exc (OtherException "AuthenticationError") "401".
Definition quoted (s : string) : string :=
  String Json.quote (s +:+ String Json.quote EmptyString).

(** A stand-in for [repr(float(text))], for texts in which no number has
    a fraction or an exponent. *)
Definition no_float (text : string) : string := text.

(** A block that ends normally and one that fails. *)
Definition passes {W} (st : EventLogger.state W) : outcome unit * EventLogger.state W :=
  (Returns tt, st).

Definition fails {W} (exc : pyexc) (st : EventLogger.state W)
    : outcome unit * EventLogger.state W :=
  (Raises exc, st).

Definition log_event (msg : string) : dict := [("type", JStr "log"); ("message", JStr msg)].
Definition done_event (answer : string) : dict :=
  [("type", JStr "done"); ("answer", JStr answer)].

(** An event with text beyond ASCII. *)
Definition accented : dict := [("type", JStr "log"); ("message", JStr "café ✓")].

Definition session_of (q : list dict) : AgentSession :=
  {| queue := q; finished := false; error := None |}.

(** An executor that reports a plan and a tool run and answers, and one
    that fails after the plan. *)
Definition planner (max_steps max_steps_per_task : Z) (query : string)
    : list call * outcome string :=
  ([Header "Plan"; ToolRun "search" "null"], Returns "42").

Definition broken (max_steps max_steps_per_task : Z) (query : string)
    : list call * outcome string :=
  ([Header "Plan"], Raises refused).

Definition ask (query : string) : RunRequest :=
  {| query := query; max_steps := None; max_steps_per_task := None |}.

Definition empty_server : DexterServer :=
  {| sessions := ∅; objects := fun _ => new_session; allocated := 0 |}.

(** A server with one run, [run-1], whose worker is through. *)
Definition served : DexterServer :=
  let '(r, σ) := run_agent "run-1" empty_server in
  snd (run_worker planner (loads no_float) (ask "6 x 7?") r σ).

End Samples.

(** ** Further vocabulary and sample data *)

Module LoggerTerms.
Import Json EventLogger.

(** The types of the events the logger has methods for. *)
Definition logger_types : list string :=
  ["log"; "header"; "user_query"; "task_list"; "task_start"; "task_done";
   "tool_run"; "warning"; "answer"; "progress"].

(** The body of the comprehension in [log_task_list]:
    [{**task, "done": bool(task.get("done", False))}]. *)
Definition normalize (task : dict) : dict :=
  set "done" (JBool (truthy (default (JBool false) (get "done" task)))) task.

(** The messages given to [_log] by a call, the calls inside a
    [progress] block included, in order. *)
Fixpoint messages (c : call) : list string :=
  match c with
  | Log msg => [msg]
  | Progress _ _ body _ => flat_map messages body
  | _ => []
  end.

(** The message of an event of type [log]. *)
Definition log_message (payload : dict) : option string :=
  match get "type" payload, get "message" payload with
  | Some (JStr "log"), Some (JStr msg) => Some msg
  | _, _ => None
  end.

(** An event of type [progress] with the given status. *)
Definition has_status (status : string) (payload : dict) : bool :=
  match get "type" payload, get "status" payload with
  | Some (JStr t), Some (JStr s) => String.eqb t "progress" && String.eqb s status
  | _, _ => false
  end.


End LoggerTerms.

Module ServerTerms.
Import Json Server.

(** The registry is sound: its references are in use, and no two run
    ids refer to the same session object. *)
Definition sound (σ : DexterServer) : Prop :=
  (forall run_id r, sessions σ !! run_id = Some r -> (r < allocated σ)%nat)
  /\ (forall id1 id2 r,
         sessions σ !! id1 = Some r -> sessions σ !! id2 = Some r -> id1 = id2).

(** A text without control characters, line breaks among them. *)
Definition one_line (s : string) : bool :=
  forallb (fun c => (32 <=? N_of_ascii c)%N) (Str.to_bytes s).

(** A value whose floats are spelled without control characters, as
    [repr] spells them. *)
Fixpoint plain_floats (v : json) : bool :=
  match v with
  | JFloat r => one_line (floatstr r)
  | JList l => forallb plain_floats l
  | JDict d => forallb (fun kv => plain_floats (snd kv)) d
  | _ => true
  end.

End ServerTerms.

(** ** event_logger.py with a callback that can raise

    [EventLogger] above takes its callback for one that returns.  Here
    the callback may raise: what it has done to the world stays done,
    and its exception leaves the method that called it.  In [progress]
    the [start] event is emitted before the [try] and the [complete]
    event inside it, so an exception of the callback at [complete] is
    handled like one of the block.  As in [EventLogger], the exceptions
    are instances of [Exception]. *)

Module FallibleLogger.
Import Json EventLogger.

Section Methods.
Context {W : Type}.

(** [self.emit]: how the call ends, and the world it leaves. *)
Variable emit : EventPayload -> W -> outcome unit * W.

Definition do_emit (payload : EventPayload) (st : state W) : outcome unit * state W :=
  let '(res, w) := emit payload (world st) in (res, State (log st) w).

(** [_log]: the message is appended before the callback is called. *)
Definition _log (msg : string) (st : state W) : outcome unit * state W :=
  do_emit [("type", JStr "log"); ("message", JStr msg)]
          (State (log st ++ [msg]) (world st)).

(** [with self.progress(message, success_message): body].  An exception
    that the callback raises in the [except] clause replaces the one
    that is handled there. *)
Definition progress (message success_message : string)
    (body : state W -> outcome unit * state W) (st : state W)
    : outcome unit * state W :=
  let except_ (exc : pyexc) (st2 : state W) :=
    match do_emit [("type", JStr "progress"); ("status", JStr "error");
                   ("message", JStr (message +:+ " failed: " +:+ exc_str exc))] st2 with
    | (Returns _, st3) => (Raises exc, st3)
    | (Raises exc', st3) => (Raises exc', st3)
    end in
  match do_emit [("type", JStr "progress"); ("status", JStr "start");
                 ("message", JStr message)] st with
  | (Raises exc, st1) => (Raises exc, st1)
  | (Returns _, st1) =>
      match body st1 with
      | (Returns _, st2) =>
          match do_emit [("type", JStr "progress"); ("status", JStr "complete");
                         ("message", JStr (completed message success_message))] st2 with
          | (Returns _, st3) => (Returns tt, st3)
          | (Raises exc, st3) => except_ exc st3
          end
      | (Raises exc, st2) => except_ exc st2
      end
  end.

End Methods.

End FallibleLogger.

Module MoreSamples.
Import Model Json Server EventLogger Samples.

(** A text of two lines. *)
Definition two_lines : string := "one" +:+ String (ascii_of_N 10) "two".

(** A task that is done in its own words, and one that does not say. *)
Definition told : dict :=
  [("id", JInt 1); ("done", JStr "yes"); ("description", JStr "plan")].

Definition untold : dict := [("id", JInt 2)].

(** An event whose type is a list. *)
Definition odd_event : dict := [("type", JList [JStr "done"])].

(** A callback that keeps what it is given and raises on the [progress]
    events of one status. *)
Definition refusing (status : string) (payload : dict) (w : list dict)
    : outcome unit * list dict :=
  (if LoggerTerms.has_status status payload then Raises refused else Returns tt,
   w ++ [payload]).

(** A server with a second run, [run-2], registered behind [run-1]. *)
Definition two_runs : DexterServer := snd (run_agent "run-2" served).

End MoreSamples.

(** * Properties *)

(** ** Python strings *)

Module StrFacts.
Import Str.
Local Open Scope N_scope.

Lemma of_to_bytes s : of_bytes (to_bytes s) = s.
Proof. apply string_of_list_ascii_of_string. Qed.

Lemma to_of_bytes l : to_bytes (of_bytes l) = l.
Proof. apply list_ascii_of_string_of_list_ascii. Qed.

Lemma to_bytes_app s t : to_bytes (s +:+ t) = to_bytes s ++ to_bytes t.
Proof. induction s as [|c s IH]; simpl; [done | by rewrite <- IH]. Qed.

Lemma of_bytes_app l k : of_bytes (l ++ k) = of_bytes l +:+ of_bytes k.
Proof. induction l as [|c l IH]; simpl; [done | by rewrite IH]. Qed.

Lemma forallb_rev_eq {A} (f : A -> bool) l : forallb f (rev l) = forallb f l.
Proof.
  induction l as [|a l IH]; simpl; [done|].
  rewrite forallb_app, IH. simpl. by rewrite andb_true_r, andb_comm.
Qed.

Section DropSpaces.
Variable sp1 : ascii -> bool.
Variable sp2 : ascii -> ascii -> bool.
Variable sp3 : ascii -> ascii -> ascii -> bool.

Lemma drop_spaces_unfold s :
  drop_spaces sp1 sp2 sp3 s
  = match ws_len sp1 sp2 sp3 s with
    | O => s
    | n => drop_spaces sp1 sp2 sp3 (drop n s)
    end.
Proof.
  destruct s as [|c [|d [|e s]]]; simpl; try done;
    repeat (case_match; simpl; try done).
Qed.

Lemma ws_len_le s : (ws_len sp1 sp2 sp3 s <= length s)%nat.
Proof.
  destruct s as [|c [|d [|e s]]]; simpl; repeat case_match; simpl; lia.
Qed.

Lemma drop_spaces_prefix l x :
  forallb sp1 l = true ->
  drop_spaces sp1 sp2 sp3 (l ++ x) = drop_spaces sp1 sp2 sp3 x.
Proof.
  induction l as [|c l IH]; simpl; [done|].
  intros [Hc Hl]%andb_true_iff. rewrite Hc. auto.
Qed.

(** A byte that is whitespace by itself is no part of a longer
    whitespace character. *)
Hypothesis sp2_single : forall c d, sp1 d = true -> sp2 c d = false.
Hypothesis sp3_single_2 : forall c d e, sp1 d = true -> sp3 c d e = false.
Hypothesis sp3_single_3 : forall c d e, sp1 e = true -> sp3 c d e = false.

Lemma ws_len_app v r :
  v <> [] -> forallb sp1 r = true ->
  ws_len sp1 sp2 sp3 (v ++ r) = ws_len sp1 sp2 sp3 v.
Proof.
  intros Hv Hr.
  destruct v as [|c [|d [|e v]]]; [done|..]; simpl; try done.
  - destruct (sp1 c); [done|].
    destruct r as [|x [|y r]]; simpl in *; [done|..].
    + apply andb_true_iff in Hr as [Hx _]. by rewrite sp2_single.
    + apply andb_true_iff in Hr as [Hx [Hy _]%andb_true_iff].
      by rewrite sp2_single, sp3_single_2.
  - destruct (sp1 c); [done|]. destruct (sp2 c d); [done|].
    destruct r as [|x r]; simpl in *; [done|].
    apply andb_true_iff in Hr as [Hx _]. by rewrite sp3_single_3.
Qed.

(** Whitespace behind a text stays behind what is left of the text,
    or nothing is left at all. *)
Lemma drop_spaces_app v r :
  forallb sp1 r = true ->
  drop_spaces sp1 sp2 sp3 (v ++ r) = drop_spaces sp1 sp2 sp3 v ++ r
  \/ (drop_spaces sp1 sp2 sp3 (v ++ r) = [] /\ drop_spaces sp1 sp2 sp3 v = []).
Proof.
  intros Hr. remember (length v) as n eqn:Hn. revert v Hn.
  induction n as [n IH] using lt_wf_ind. intros v ->.
  destruct (decide (v = [])) as [->|Hv].
  { right. simpl. rewrite <- (app_nil_r r) at 1.
    by rewrite drop_spaces_prefix. }
  rewrite (drop_spaces_unfold (v ++ r)), (drop_spaces_unfold v), ws_len_app by done.
  pose proof (ws_len_le v) as Hle.
  destruct (ws_len sp1 sp2 sp3 v) as [|k] eqn:Hk; [by left|].
  rewrite drop_app_le by lia.
  apply (IH (length (drop (S k) v))); [|done].
  rewrite length_drop. destruct v; [done|]. simpl in *. lia.
Qed.

(** A change of the bytes that keeps the whitespace characters and
    makes no new ones goes through. *)
Variable f : ascii -> ascii.
Hypothesis sp1_f : forall c, sp1 (f c) = sp1 c.
Hypothesis sp2_f : forall c d, sp2 (f c) (f d) = sp2 c d.
Hypothesis sp3_f : forall c d e, sp3 (f c) (f d) (f e) = sp3 c d e.

Lemma ws_len_map s :
  ws_len sp1 sp2 sp3 (map f s) = ws_len sp1 sp2 sp3 s.
Proof.
  destruct s as [|c [|d [|e s]]]; simpl; rewrite ?sp1_f, ?sp2_f, ?sp3_f; done.
Qed.

Lemma drop_spaces_map s :
  drop_spaces sp1 sp2 sp3 (map f s) = map f (drop_spaces sp1 sp2 sp3 s).
Proof.
  remember (length s) as n eqn:Hn. revert s Hn.
  induction n as [n IH] using lt_wf_ind. intros s ->.
  rewrite (drop_spaces_unfold (map f s)), (drop_spaces_unfold s), ws_len_map.
  destruct (ws_len sp1 sp2 sp3 s) as [|k] eqn:Hk; [done|].
  rewrite skipn_map.
  apply (IH (length (drop (S k) s))); [|done].
  rewrite length_drop. destruct s; [done|]. simpl. lia.
Qed.
End DropSpaces.

Ltac codes :=
  unfold ascii_space, space2, space3, kelvin in *; cbv zeta in *; lia.

Lemma space2_single c d : ascii_space d = true -> space2 c d = false.
Proof. intros H. codes. Qed.

Lemma space3_single_2 c d e : ascii_space d = true -> space3 c d e = false.
Proof. intros H. codes. Qed.

Lemma space3_single_3 c d e : ascii_space e = true -> space3 c d e = false.
Proof. intros H. codes. Qed.

Lemma rstrip_spaces x r :
  forallb ascii_space r = true -> rstrip (x ++ r) = rstrip x.
Proof.
  intros Hr. unfold rstrip, lstrip_rev.
  rewrite rev_app_distr, drop_spaces_prefix; [done|].
  by rewrite forallb_rev_eq.
Qed.

(** [strip] does away with ASCII whitespace around a text. *)
Lemma strip_padded l v r :
  all_space l = true -> all_space r = true ->
  strip (l +:+ v +:+ r) = strip v.
Proof.
  unfold all_space. intros Hl Hr. unfold strip, lstrip.
  rewrite !to_bytes_app, drop_spaces_prefix by done.
  destruct (drop_spaces_app ascii_space space2 space3
              space2_single space3_single_2 space3_single_3
              (to_bytes v) (to_bytes r) Hr) as [-> | [-> ->]].
  - by rewrite rstrip_spaces.
  - done.
Qed.

Lemma lower_ascii_code c :
  N_of_ascii (lower_ascii c)
  = if (65 <=? N_of_ascii c) && (N_of_ascii c <=? 90)
    then N_of_ascii c + 32 else N_of_ascii c.
Proof.
  unfold lower_ascii. pose proof (N_ascii_bounded c).
  destruct ((65 <=? N_of_ascii c) && (N_of_ascii c <=? 90)) eqn:E; [|done].
  rewrite N_ascii_embedding; lia.
Qed.

Ltac fold_codes :=
  unfold ascii_space, space2, space3, kelvin; cbv zeta;
  rewrite !lower_ascii_code;
  repeat match goal with
  | |- context [if ?b then _ else _] => destruct b eqn:?
  end; lia.

Lemma ascii_space_lower c : ascii_space (lower_ascii c) = ascii_space c.
Proof. fold_codes. Qed.

Lemma space2_lower c d : space2 (lower_ascii c) (lower_ascii d) = space2 c d.
Proof. fold_codes. Qed.

Lemma space3_lower c d e :
  space3 (lower_ascii c) (lower_ascii d) (lower_ascii e) = space3 c d e.
Proof. fold_codes. Qed.

Lemma kelvin_lower c d e :
  kelvin (lower_ascii c) (lower_ascii d) (lower_ascii e) = kelvin c d e.
Proof. fold_codes. Qed.

Lemma lower_ascii_idemp c : lower_ascii (lower_ascii c) = lower_ascii c.
Proof. by destruct c as [[] [] [] [] [] [] [] []]. Qed.

Lemma rev_map_eq {A B} (f : A -> B) l : rev (map f l) = map f (rev l).
Proof. symmetry. apply map_rev. Qed.

(** The whitespace that [strip] removes and the case of the ASCII
    letters do not touch each other. *)
Lemma strip_map_lower s :
  rstrip (lstrip (map lower_ascii s)) = map lower_ascii (rstrip (lstrip s)).
Proof.
  unfold rstrip, lstrip, lstrip_rev.
  rewrite (drop_spaces_map _ _ _ lower_ascii)
    by auto using ascii_space_lower, space2_lower, space3_lower.
  rewrite rev_map_eq.
  rewrite (drop_spaces_map _ _ _ lower_ascii)
    by auto using ascii_space_lower, space2_lower, space3_lower.
  by rewrite rev_map_eq.
Qed.

Lemma lower_bytes_3 c d e s :
  lower_bytes (c :: d :: e :: s)
  = if kelvin c d e then "k"%char :: lower_bytes s
    else lower_ascii c :: lower_bytes (d :: e :: s).
Proof. done. Qed.

Lemma lower_bytes_map_lower s :
  lower_bytes (map lower_ascii s) = lower_bytes s.
Proof.
  remember (length s) as n eqn:Hn. revert s Hn.
  induction n as [n IH] using lt_wf_ind. intros s ->.
  destruct s as [|c [|d [|e s]]];
    [done | by simpl; rewrite !lower_ascii_idemp ..|].
  change (map lower_ascii (c :: d :: e :: s))
    with (lower_ascii c :: lower_ascii d :: lower_ascii e :: map lower_ascii s).
  rewrite !lower_bytes_3, kelvin_lower, lower_ascii_idemp.
  destruct (kelvin c d e); f_equal.
  - apply (IH (length s)); [simpl; lia | done].
  - apply (IH (length (d :: e :: s)) ltac:(simpl; lia) (d :: e :: s) eq_refl).
Qed.

(** [lower] after [strip] sees a text up to the case of its ASCII
    letters. *)
Lemma lower_strip_ascii_fold s :
  lower (strip (ascii_fold s)) = lower (strip s).
Proof.
  unfold lower, strip, ascii_fold.
  by rewrite !to_of_bytes, strip_map_lower, lower_bytes_map_lower.
Qed.

Abbreviation dots := ["."; "."; "."]%char.

Lemma replace_dots s new :
  replace s "..." new = of_bytes (replace_go dots (to_bytes new) 0 (to_bytes s)).
Proof. done. Qed.

Lemma replace_go_pass old new c s :
  starts_with old (c :: s) = false ->
  replace_go old new 0 (c :: s) = c :: replace_go old new 0 s.
Proof. intros H. cbn [replace_go]. by rewrite H. Qed.

Lemma replace_go_absent new s :
  contains dots s = false -> replace_go dots new 0 s = s.
Proof.
  induction s as [|c s IH]; [done|].
  cbn [contains]. intros [H1 H2]%orb_false_iff.
  rewrite replace_go_pass by done. f_equal. auto.
Qed.

Lemma starts_with_app p y z :
  (length p <= length y)%nat -> starts_with p (y ++ z) = starts_with p y.
Proof.
  revert y. induction p as [|a p IH]; intros [|b y]; simpl; try done; try lia.
  intros Hl. rewrite IH by lia. done.
Qed.

Lemma replace_go_first new a b :
  contains dots (a ++ ["."; "."]%char) = false ->
  replace_go dots new 0 (a ++ dots ++ b) = a ++ new ++ replace_go dots new 0 b.
Proof.
  induction a as [|c a IH]; [done|].
  intros H. cbn [contains app] in H. apply orb_false_iff in H as [H1 H2].
  change ((c :: a) ++ dots ++ b) with (c :: (a ++ dots ++ b)).
  rewrite replace_go_pass.
  - cbn [app]. f_equal. by apply IH.
  - etrans; [|exact H1].
    assert (c :: a ++ dots ++ b
            = (c :: a ++ ["."; "."]%char) ++ ("."%char :: b)) as ->
      by (simpl; by rewrite <- app_assoc).
    rewrite starts_with_app; [done|]. simpl. rewrite length_app. simpl. lia.
Qed.

End StrFacts.

(** ** The invocation layer *)

Module ModelSpec.
Import Model.

Abbreviation STRUCTURED := "DEXTER_LLM_STRUCTURED_OUTPUT_METHOD".
Abbreviation TOOL_BIND := "DEXTER_LLM_TOOL_BIND".

Section Spec.
Context {Schema Tool Response : Type}.
Variable DEFAULT_SYSTEM_PROMPT : string.
Variable invoke : @chain Schema Tool -> string -> nat -> outcome Response.

Lemma getenv_insert env key value d : getenv (<[key := value]> env) key d = value.
Proof. unfold getenv. by rewrite lookup_insert_eq. Qed.

Lemma getenv_insert_ne env key key' value d :
  key <> key' -> getenv (<[key := value]> env) key' d = getenv env key' d.
Proof. intros. unfold getenv. by rewrite lookup_insert_ne. Qed.

Lemma retry_step c prompt attempt rest w :
  retry invoke c prompt (attempt :: rest) w
  = match invoke c prompt (invocations w) with
    | Returns r => (Returns (Some r), World (S (invocations w)) (slept w))
    | Raises e =>
        if is_APIConnectionError e then
          if Nat.eqb attempt 2 then (Raises e, World (S (invocations w)) (slept w))
          else retry invoke c prompt rest
                 (World (S (invocations w)) (slept w ++ [backoff attempt]))
        else (Raises e, World (S (invocations w)) (slept w))
    end.
Proof. done. Qed.

Lemma transient_failures_S c prompt k :
  transient_failures invoke c prompt (S k) = true ->
  transient_failures invoke c prompt k = true
  /\ exists e, invoke c prompt k = Raises e /\ is_APIConnectionError e = true.
Proof.
  unfold transient_failures. rewrite seq_S, forallb_app. simpl.
  intros [H1 H2]%andb_true_iff. split; [done|].
  destruct (invoke c prompt k) as [|e]; [done|].
  exists e. by rewrite andb_true_r in H2.
Qed.

(** The loop after [k] failed attempts that were retried. *)
Lemma retry_transient c prompt k :
  (k < 3)%nat ->
  transient_failures invoke c prompt k = true ->
  retry invoke c prompt (seq 0 3) fresh
  = retry invoke c prompt (seq k (3 - k)) (World k (map backoff (seq 0 k))).
Proof.
  intros Hk. induction k as [|k IH]; intros Ht; [done|].
  apply transient_failures_S in Ht as [Ht (e & He & Hc)].
  rewrite IH by (done || lia).
  replace (3 - k)%nat with (S (3 - S k)) by lia.
  rewrite <- cons_seq, retry_step. simpl invocations. rewrite He, Hc.
  replace (k =? 2)%nat with false by (symmetry; apply Nat.eqb_neq; lia).
  simpl slept. by rewrite seq_S, map_app.
Qed.

(** C3.  A call retries on connection errors only, and at most twice.
    When the first [k] attempts ([k < 3]) fail with a connection error
    and attempt [k] returns, the response is returned after [k + 1]
    invocations and nothing is tried again; when attempt [k] fails
    with any other exception, that exception is raised at once, after
    [k + 1] invocations; when all three attempts fail with a
    connection error, the exception of the last attempt is raised as
    it is, after exactly three invocations.  The sleeps before the
    second and the third attempt are 0.5 and 1.0 seconds. *)
Theorem C3_retry_policy env prompt system_prompt output_schema tools :
  let c := Chain (prompt_template DEFAULT_SYSTEM_PROMPT system_prompt)
                 (select_runnable env output_schema tools) in
  let run := call_llm DEFAULT_SYSTEM_PROMPT invoke env prompt system_prompt
                      output_schema tools fresh in
  (forall k resp,
      (k < 3)%nat -> transient_failures invoke c prompt k = true ->
      invoke c prompt k = Returns resp ->
      run = (Returns (Some resp), World (S k) (map backoff (seq 0 k))))
  /\ (forall k e,
      (k < 3)%nat -> transient_failures invoke c prompt k = true ->
      invoke c prompt k = Raises e -> is_APIConnectionError e = false ->
      run = (Raises e, World (S k) (map backoff (seq 0 k))))
  /\ (forall e,
      transient_failures invoke c prompt 2 = true ->
      invoke c prompt 2 = Raises e -> is_APIConnectionError e = true ->
      run = (Raises e, World 3 [backoff 0; backoff 1]))
  /\ backoff 0 = (1 # 2)%Q /\ backoff 1 = 1%Q.
Proof.
  intros c run. subst run. unfold call_llm. fold c.
  repeat split.
  - intros k resp Hk Ht Hr. rewrite (retry_transient c prompt k) by done.
    replace (3 - k)%nat with (S (3 - S k)) by lia.
    rewrite <- cons_seq, retry_step. simpl invocations. by rewrite Hr.
  - intros k e Hk Ht Hr He. rewrite (retry_transient c prompt k) by done.
    replace (3 - k)%nat with (S (3 - S k)) by lia.
    rewrite <- cons_seq, retry_step. simpl invocations. by rewrite Hr, He.
  - intros e Ht Hr He. rewrite (retry_transient c prompt 2) by (done || lia).
    simpl seq. rewrite retry_step. simpl invocations. by rewrite Hr, He.
Qed.


(** C4.  With an output schema, the call is the provider's answer to
    a chain that is chosen by the configured mode, trimmed and in
    lower case: [none] leaves the model unbound, [function_calling]
    and [json_schema] bind the schema with that method, any other
    value binds it with [function_calling], and so does a selector
    that is not set.  No mode makes the choice fail. *)
Theorem C4_structured_output_mode env prompt system_prompt (schema : Schema)
    tools w :
  let mode := Str.lower (Str.strip (getenv env STRUCTURED "function_calling")) in
  let call := call_llm DEFAULT_SYSTEM_PROMPT invoke env prompt system_prompt
                       (Some schema) tools w in
  let call_with target :=
    retry invoke (Chain (prompt_template DEFAULT_SYSTEM_PROMPT system_prompt) target)
          prompt (seq 0 3) w in
  (mode = "none" -> call = call_with Llm)
  /\ (mode = "function_calling" ->
      call = call_with (With_structured_output schema "function_calling"))
  /\ (mode = "json_schema" ->
      call = call_with (With_structured_output schema "json_schema"))
  /\ (mode <> "none" -> mode <> "function_calling" -> mode <> "json_schema" ->
      call = call_with (With_structured_output schema "function_calling"))
  /\ (env !! STRUCTURED = None ->
      call = call_with (With_structured_output schema "function_calling")).
Proof.
  intros mode call call_with. subst call call_with.
  unfold call_llm, select_runnable. fold mode.
  repeat split.
  - by intros ->.
  - by intros ->.
  - by intros ->.
  - intros H1 H2 H3.
    apply String.eqb_neq in H1, H2, H3. by rewrite H1, H2, H3.
  - intros Hnone. subst mode. unfold getenv. by rewrite Hnone.
Qed.

Lemma select_runnable_mode env env' (output_schema : option Schema)
    (tools : option (list Tool)) :
  Str.lower (Str.strip (getenv env STRUCTURED "function_calling"))
  = Str.lower (Str.strip (getenv env' STRUCTURED "function_calling")) ->
  Str.lower (Str.strip (getenv env TOOL_BIND "bind"))
  = Str.lower (Str.strip (getenv env' TOOL_BIND "bind")) ->
  select_runnable env output_schema tools = select_runnable env' output_schema tools.
Proof. intros H1 H2. unfold select_runnable. by rewrite H1, H2. Qed.

Lemma lower_strip_variant l v r v' :
  Str.all_space l = true -> Str.all_space r = true ->
  Str.ascii_fold v = Str.ascii_fold v' ->
  Str.lower (Str.strip (l +:+ v +:+ r)) = Str.lower (Str.strip v').
Proof.
  intros Hl Hr Hv. rewrite StrFacts.strip_padded by done.
  rewrite <- (StrFacts.lower_strip_ascii_fold v), Hv.
  apply StrFacts.lower_strip_ascii_fold.
Qed.

(** C10.  A selector value may be padded with whitespace and written
    in any case: a value [v] between two runs of whitespace makes the
    call behave exactly as each value [v'] that differs from [v] in
    the case of letters only.  This holds for the structured-output
    selector and for the tool-binding selector. *)
Theorem C10_selectors_ignore_case_and_padding env prompt system_prompt
    output_schema tools w (l v r v' : string) :
  Str.all_space l = true -> Str.all_space r = true ->
  Str.ascii_fold v = Str.ascii_fold v' ->
  call_llm DEFAULT_SYSTEM_PROMPT invoke (<[STRUCTURED := l +:+ v +:+ r]> env)
           prompt system_prompt output_schema tools w
  = call_llm DEFAULT_SYSTEM_PROMPT invoke (<[STRUCTURED := v']> env)
             prompt system_prompt output_schema tools w
  /\ call_llm DEFAULT_SYSTEM_PROMPT invoke (<[TOOL_BIND := l +:+ v +:+ r]> env)
              prompt system_prompt output_schema tools w
     = call_llm DEFAULT_SYSTEM_PROMPT invoke (<[TOOL_BIND := v']> env)
                prompt system_prompt output_schema tools w.
Proof.
  intros Hl Hr Hv. unfold call_llm. split; f_equal; f_equal.
  - apply select_runnable_mode.
    + rewrite !getenv_insert. by apply lower_strip_variant.
    + by rewrite !getenv_insert_ne.
  - apply select_runnable_mode.
    + by rewrite !getenv_insert_ne.
    + rewrite !getenv_insert. by apply lower_strip_variant.
Qed.
End Spec.

Import Samples.

Lemma C3_witness :
  call_llm "You are Dexter." (provider [Raises timeout; Raises timeout; Returns "4"])
           ∅ "2+2?" None None None fresh
  = (Returns (Some "4"), World 3 [(1 # 2)%Q; 1%Q])
  /\ call_llm "You are Dexter." (provider [Raises timeout; Raises refused])
             ∅ "2+2?" None None None fresh
    = (Raises refused, World 2 [(1 # 2)%Q])
  /\ call_llm "You are Dexter." (provider [Raises timeout; Raises timeout; Raises timeout])
             ∅ "2+2?" None None None fresh
    = (Raises timeout, World 3 [(1 # 2)%Q; 1%Q]).
Proof.
  split; [|split].
  - apply (proj1 (C3_retry_policy "You are Dexter."
                    (provider [Raises timeout; Raises timeout; Returns "4"])
                    ∅ "2+2?" None None None) 2%nat "4");
      [lia | reflexivity | reflexivity].
  - apply (proj1 (proj2 (C3_retry_policy "You are Dexter."
                           (provider [Raises timeout; Raises refused])
                           ∅ "2+2?" None None None)) 1%nat refused);
      [lia | reflexivity | reflexivity | reflexivity].
  - apply (proj1 (proj2 (proj2 (C3_retry_policy "You are Dexter."
                    (provider [Raises timeout; Raises timeout; Raises timeout])
                    ∅ "2+2?" None None None))) timeout);
      reflexivity.
Defined.

Lemma C4_witness :
  call_llm "You are Dexter." (provider [Returns "4"]) (env_of STRUCTURED "none")
           "2+2?" None (Some "Answer") None fresh
  = retry (provider [Returns "4"])
          (Chain (prompt_template "You are Dexter." None) Llm) "2+2?" (seq 0 3) fresh
  /\ call_llm "You are Dexter." (provider [Returns "4"]) (env_of STRUCTURED "json_schema")
             "2+2?" None (Some "Answer") None fresh
    = retry (provider [Returns "4"])
            (Chain (prompt_template "You are Dexter." None)
                   (With_structured_output "Answer" "json_schema"))
            "2+2?" (seq 0 3) fresh
  /\ call_llm "You are Dexter." (provider [Returns "4"])
             (env_of STRUCTURED "function_calling")
             "2+2?" None (Some "Answer") None fresh
    = retry (provider [Returns "4"])
            (Chain (prompt_template "You are Dexter." None)
                   (With_structured_output "Answer" "function_calling"))
            "2+2?" (seq 0 3) fresh
  /\ call_llm "You are Dexter." (provider [Returns "4"]) (env_of STRUCTURED "tool_use")
             "2+2?" None (Some "Answer") None fresh
    = retry (provider [Returns "4"])
            (Chain (prompt_template "You are Dexter." None)
                   (With_structured_output "Answer" "function_calling"))
            "2+2?" (seq 0 3) fresh
  /\ call_llm "You are Dexter." (provider [Returns "4"]) ∅
             "2+2?" None (Some "Answer") None fresh
    = retry (provider [Returns "4"])
            (Chain (prompt_template "You are Dexter." None)
                   (With_structured_output "Answer" "function_calling"))
            "2+2?" (seq 0 3) fresh.
Proof.
  split; [|split; [|split; [|split]]].
  - apply (proj1 (C4_structured_output_mode "You are Dexter." (provider [Returns "4"])
             (env_of STRUCTURED "none") "2+2?" None "Answer" None fresh)).
    reflexivity.
  - apply (proj1 (proj2 (proj2 (C4_structured_output_mode "You are Dexter."
             (provider [Returns "4"])
             (env_of STRUCTURED "json_schema") "2+2?" None "Answer" None fresh)))).
    reflexivity.
  - apply (proj1 (proj2 (C4_structured_output_mode "You are Dexter."
             (provider [Returns "4"])
             (env_of STRUCTURED "function_calling") "2+2?" None "Answer" None fresh))).
    reflexivity.
  - apply (proj1 (proj2 (proj2 (proj2 (C4_structured_output_mode "You are Dexter."
             (provider [Returns "4"])
             (env_of STRUCTURED "tool_use") "2+2?" None "Answer" None fresh)))));
      vm_compute; discriminate.
  - apply (proj2 (proj2 (proj2 (proj2 (C4_structured_output_mode "You are Dexter."
             (provider [Returns "4"])
             ∅ "2+2?" None "Answer" None fresh))))).
    reflexivity.
Defined.

Lemma C10_witness :
  (call_llm "You are Dexter." (provider [Returns "4"])
            (<[STRUCTURED := " " +:+ "JSON_SCHEMA" +:+ " "]> ∅)
            "2+2?" None (Some "Answer") (Some ["search"]) fresh
   = call_llm "You are Dexter." (provider [Returns "4"])
              (<[STRUCTURED := "json_schema"]> ∅)
              "2+2?" None (Some "Answer") (Some ["search"]) fresh)
  /\ (call_llm "You are Dexter." (provider [Returns "4"])
               (<[TOOL_BIND := EmptyString +:+ "NONE" +:+ EmptyString]> ∅)
               "2+2?" None None (Some ["search"]) fresh
      = call_llm "You are Dexter." (provider [Returns "4"])
                 (<[TOOL_BIND := "none"]> ∅)
                 "2+2?" None None (Some ["search"]) fresh).
Proof.
  split.
  - apply (proj1 (C10_selectors_ignore_case_and_padding "You are Dexter."
             (provider [Returns "4"]) ∅ "2+2?" None (Some "Answer") (Some ["search"])
             fresh " " "JSON_SCHEMA" " " "json_schema" eq_refl eq_refl eq_refl)).
  - apply (proj2 (C10_selectors_ignore_case_and_padding "You are Dexter."
             (provider [Returns "4"]) ∅ "2+2?" None None (Some ["search"])
             fresh EmptyString "NONE" EmptyString "none" eq_refl eq_refl eq_refl)).
Defined.
End ModelSpec.

(** ** The event encoder *)

Module LoggerFacts.
Import Json EventLogger.

Lemma call_rect' (P : call -> Prop) :
  (forall msg, P (Log msg)) ->
  (forall msg, P (Header msg)) ->
  (forall query, P (UserQuery query)) ->
  (forall tasks, P (TaskList tasks)) ->
  (forall task_desc, P (TaskStart task_desc)) ->
  (forall task_desc, P (TaskDone task_desc)) ->
  (forall tool result, P (ToolRun tool result)) ->
  (forall tool input_str, P (Risky tool input_str)) ->
  (forall summary, P (Summary summary)) ->
  (forall message success_message body raised,
      Forall P body -> P (Progress message success_message body raised)) ->
  forall c, P c.
Proof.
  intros H1 H2 H3 H4 H5 H6 H7 H8 H9 H10.
  fix IH 1.
  intros [msg|msg|query|tasks|task|task|tool result|tool input|summary
         |message success_message body raised].
  - apply H1.
  - apply H2.
  - apply H3.
  - apply H4.
  - apply H5.
  - apply H6.
  - apply H7.
  - apply H8.
  - apply H9.
  - apply H10. induction body as [|c body IHb]; constructor; [apply IH | exact IHb].
Qed.

Section Facts.
Variable json_loads : string -> option json.

Lemma emit_all_trace ps w : emit_all trace ps w = w ++ ps.
Proof.
  revert w. induction ps as [|p ps IH]; intros w.
  - simpl. by rewrite app_nil_r.
  - change (emit_all trace (p :: ps) w) with (emit_all trace ps (trace p w)).
    rewrite IH. unfold trace. by rewrite <- app_assoc.
Qed.

Lemma emit_all_app {W} (emit : EventPayload -> W -> W) ps qs w :
  emit_all emit (ps ++ qs) w = emit_all emit qs (emit_all emit ps w).
Proof. apply fold_left_app. Qed.

(** What a call does to the world is to emit its events. *)
Definition emits_events (c : call) : Prop :=
  forall W (emit : EventPayload -> W -> W) st,
    world (run_call emit json_loads c st)
    = emit_all emit (events json_loads c) (world st).

Lemma run_calls_cons {W} (emit : EventPayload -> W -> W) c calls st :
  run_calls emit json_loads (c :: calls) st
  = run_calls emit json_loads calls (run_call emit json_loads c st).
Proof. done. Qed.

Lemma run_calls_world calls :
  Forall emits_events calls ->
  forall W (emit : EventPayload -> W -> W) st,
    world (run_calls emit json_loads calls st)
    = emit_all emit (events_of json_loads calls) (world st).
Proof.
  intros Hall.
  assert (forall W (emit : EventPayload -> W -> W) st,
             world (run_calls emit json_loads calls st)
             = emit_all emit
                 (flat_map (events json_loads) calls) (world st)) as Hflat.
  { induction Hall as [|c calls Hc _ IH]; intros W emit st; [done|].
    rewrite run_calls_cons, IH, Hc. simpl. by rewrite emit_all_app. }
  intros W emit st. rewrite Hflat. unfold events_of. rewrite Hflat.
  by rewrite emit_all_trace.
Qed.

Lemma run_call_world c : emits_events c.
Proof.
  induction c as [| | | | | | | | |message success_message body raised IH]
    using call_rect'; try (intros W emit st; reflexivity).
  intros W emit st.
  pose proof (run_calls_world body IH) as Hb.
  unfold events. cbn [run_call]. unfold progress.
  destruct raised as [exc|]; cbn [snd]; unfold do_emit; cbn [world log];
    change (fold_left (fun st2 c' => run_call ?e json_loads c' st2) body ?s)
      with (run_calls e json_loads body s);
    rewrite !Hb; cbn [world];
    rewrite emit_all_trace; unfold trace, emit_all; cbn [app fold_left];
    rewrite fold_left_app; reflexivity.
Qed.

Lemma events_of_flat_map calls :
  events_of json_loads calls = flat_map (events json_loads) calls.
Proof.
  unfold events_of. induction calls as [|c calls IH] using rev_ind; [done|].
  unfold run_calls in *. rewrite fold_left_app. cbn [fold_left].
  rewrite run_call_world, IH, emit_all_trace.
  rewrite flat_map_app. cbn [flat_map]. by rewrite app_nil_r.
Qed.

Lemma run_calls_emits calls {W} (emit : EventPayload -> W -> W) st :
  world (run_calls emit json_loads calls st)
  = emit_all emit (events_of json_loads calls) (world st).
Proof.
  apply run_calls_world. apply Forall_forall. intros c _. apply run_call_world.
Qed.


Lemma events_progress message success_message body raised :
  events json_loads (Progress message success_message body raised)
  = [("type", JStr "progress"); ("status", JStr "start"); ("message", JStr message)]
    :: events_of json_loads body
    ++ [match raised with
        | Some exc =>
            [("type", JStr "progress"); ("status", JStr "error");
             ("message", JStr (message +:+ " failed: " +:+ exc_str exc))]
        | None =>
            [("type", JStr "progress"); ("status", JStr "complete");
             ("message", JStr (completed message success_message))]
        end].
Proof.
  unfold events. cbn [run_call]. unfold progress.
  destruct raised as [exc|]; cbn [snd]; unfold do_emit; cbn [world log];
    change (fold_left (fun st2 c' => run_call ?e json_loads c' st2) body ?s)
      with (run_calls e json_loads body s);
    rewrite run_calls_emits; cbn [world];
    rewrite emit_all_trace; reflexivity.
Qed.

(** The logger emits no event of a terminal type. *)
Lemma tool_run_payload_type tool result :
  get "type" (tool_run_payload json_loads tool result) = Some (JStr "tool_run").
Proof. unfold tool_run_payload. by destruct (Str.truthy result). Qed.

Lemma events_not_terminal c :
  Forall (fun p => Server.is_terminal p = Returns false) (events json_loads c).
Proof.
  induction c as [| | | | | | tool result | | |message success_message body raised IH]
    using call_rect'; try (by repeat constructor).
  - unfold events. cbn. constructor; [|done].
    unfold Server.is_terminal. by rewrite tool_run_payload_type.
  - rewrite events_progress, events_of_flat_map.
    constructor; [done|]. apply Forall_app. split.
    + induction IH as [|c body Hc _ IHb]; [done|].
      cbn [flat_map]. apply Forall_app. by split.
    + by destruct raised; repeat constructor.
Qed.

Lemma events_of_not_terminal calls :
  Forall (fun p => Server.is_terminal p = Returns false) (events_of json_loads calls).
Proof.
  rewrite events_of_flat_map. induction calls as [|c calls IH]; [done|].
  cbn [flat_map]. apply Forall_app. split; [apply events_not_terminal | done].
Qed.

End Facts.
End LoggerFacts.

Module EventLoggerSpec.
Import Json EventLogger Samples StrFacts.

Section Spec.
Context {W : Type}.
Variable emit : EventPayload -> W -> W.
Variable json_loads : string -> option json.

Lemma truthy_not_empty s : Str.truthy s = true <-> s <> EmptyString.
Proof. by destruct s. Qed.

(** C5, amended.  [log_tool_run] emits one [tool_run] event.  For an
    empty [result] it has no [result] field.  For a [result] that is not
    empty, the field holds the decoded value when [result] decodes to a
    value other than null, and the raw text when decoding fails or gives
    null. *)
Theorem C5_tool_run_result tool result st :
  let logged payload := State (log st) (emit payload (world st)) in
  let base := [("type", JStr "tool_run"); ("tool", JStr tool)] in
  (result = EmptyString ->
   log_tool_run emit json_loads tool result st = logged base
   /\ get "result" base = None)
  /\ (forall v, result <> EmptyString -> json_loads result = Some v -> v <> JNull ->
      log_tool_run emit json_loads tool result st = logged (base ++ [("result", v)]))
  /\ (result <> EmptyString -> json_loads result = None ->
      log_tool_run emit json_loads tool result st
      = logged (base ++ [("result", JStr result)]))
  /\ (result <> EmptyString -> json_loads result = Some JNull ->
      log_tool_run emit json_loads tool result st
      = logged (base ++ [("result", JStr result)])).
Proof.
  intros logged base. unfold log_tool_run, tool_run_payload, do_emit.
  split; [|split; [|split]].
  - intros ->. done.
  - intros v Hr%truthy_not_empty Hv Hnull. rewrite Hr, Hv. by destruct v.
  - intros Hr%truthy_not_empty Hv. by rewrite Hr, Hv.
  - intros Hr%truthy_not_empty Hv. by rewrite Hr, Hv.
Qed.

Lemma completed_absent message :
  Str.occurs "..." message = false -> completed message EmptyString = message.
Proof.
  unfold Str.occurs, completed. intros H. simpl Str.truthy. cbv iota.
  by rewrite replace_dots, replace_go_absent, of_to_bytes.
Qed.

Lemma completed_first base rest :
  Str.occurs "..." (base +:+ "..") = false ->
  completed (base +:+ "..." +:+ rest) EmptyString
  = base +:+ " ✓" +:+ completed rest EmptyString.
Proof.
  unfold Str.occurs, completed. intros H. simpl Str.truthy. cbv iota.
  rewrite to_bytes_app in H.
  rewrite !replace_dots, !to_bytes_app.
  rewrite (replace_go_first _ _ _ H).
  by rewrite !of_bytes_app, of_to_bytes.
Qed.

(** C6, amended.  [progress] emits a [start] event with the message and
    runs the block.  When the block ends normally it emits [complete]
    with the success message, or, when that is empty, with the message
    in which each occurrence of three dots, found from left to right, is
    replaced by the completion mark: a message without three dots is
    reused, and the first occurrence is replaced wherever it stands.
    When the block raises, it emits [error] with the message, the text
    [failed:] and the text of the exception, and raises the same
    exception. *)
Theorem C6_progress_events message success_message
    (body : state W -> outcome unit * state W) st :
  let event status text :=
    [("type", JStr "progress"); ("status", JStr status); ("message", JStr text)] in
  let entered := do_emit emit (event "start" message) st in
  (forall st2,
      body entered = (Returns tt, st2) ->
      progress emit message success_message body st
      = (Returns tt,
         do_emit emit
           (event "complete"
                  (if Str.truthy success_message then success_message
                   else Str.replace message "..." " ✓")) st2))
  /\ (forall exc st2,
      body entered = (Raises exc, st2) ->
      progress emit message success_message body st
      = (Raises exc,
         do_emit emit (event "error" (message +:+ " failed: " +:+ exc_str exc)) st2))
  /\ (forall base rest,
      Str.occurs "..." (base +:+ "..") = false ->
      Str.replace (base +:+ "..." +:+ rest) "..." " ✓"
      = base +:+ " ✓" +:+ Str.replace rest "..." " ✓")
  /\ (Str.occurs "..." message = false -> Str.replace message "..." " ✓" = message).
Proof.
  intros event entered. subst event entered. split; [|split; [|split]].
  - intros st2 Hb. unfold progress. by rewrite Hb.
  - intros exc st2 Hb. unfold progress. by rewrite Hb.
  - intros base rest H. apply (completed_first base rest H).
  - apply completed_absent.
Qed.
End Spec.

Lemma C5_witness :
  let a1 := "{" +:+ quoted "a" +:+ ":1}" in
  world (log_tool_run trace (loads no_float) "search" EmptyString (State [] []))
  = [[("type", JStr "tool_run"); ("tool", JStr "search")]]
  /\ world (log_tool_run trace (loads no_float) "search" a1 (State [] []))
     = [[("type", JStr "tool_run"); ("tool", JStr "search");
         ("result", JDict [("a", JInt 1)])]]
  /\ world (log_tool_run trace (loads no_float) "search" "not data" (State [] []))
     = [[("type", JStr "tool_run"); ("tool", JStr "search");
         ("result", JStr "not data")]]
  /\ world (log_tool_run trace (loads no_float) "search" "null" (State [] []))
     = [[("type", JStr "tool_run"); ("tool", JStr "search");
         ("result", JStr "null")]].
Proof.
  intros a1. split; [|split; [|split]].
  - rewrite (proj1 (proj1 (C5_tool_run_result trace (loads no_float)
                             "search" EmptyString (State [] [])) eq_refl)).
    reflexivity.
  - rewrite (proj1 (proj2 (C5_tool_run_result trace (loads no_float)
                             "search" a1 (State [] [])))
               (JDict [("a", JInt 1)])); [reflexivity | discriminate | reflexivity | discriminate].
  - rewrite (proj1 (proj2 (proj2 (C5_tool_run_result trace (loads no_float)
                             "search" "not data" (State [] []))))); [reflexivity | discriminate | reflexivity].
  - rewrite (proj2 (proj2 (proj2 (C5_tool_run_result trace (loads no_float)
                             "search" "null" (State [] []))))); [reflexivity | discriminate | reflexivity].
Defined.

(** C5 as stated fails: the text [null] is not empty and decodes (to
    null), yet the event carries the raw text, not the decoded value. *)
Lemma C5_counterexample :
  Str.truthy "null" = true
  /\ loads no_float "null" = Some JNull
  /\ get "result" (tool_run_payload (loads no_float) "search" "null") = Some (JStr "null")
  /\ get "result" (tool_run_payload (loads no_float) "search" "null") <> Some JNull.
Proof. repeat split. discriminate. Qed.
Lemma C6_witness :
  progress trace "Loading..." EmptyString passes (State [] [])
  = (Returns tt,
     State [] [[("type", JStr "progress"); ("status", JStr "start");
                ("message", JStr "Loading...")];
               [("type", JStr "progress"); ("status", JStr "complete");
                ("message", JStr "Loading ✓")]])
  /\ progress trace "Loading..." "Loaded" passes (State [] [])
     = (Returns tt,
        State [] [[("type", JStr "progress"); ("status", JStr "start");
                   ("message", JStr "Loading...")];
                  [("type", JStr "progress"); ("status", JStr "complete");
                   ("message", JStr "Loaded")]])
  /\ progress trace "Loading..." EmptyString (fails timeout) (State [] [])
     = (Raises timeout,
        State [] [[("type", JStr "progress"); ("status", JStr "start");
                   ("message", JStr "Loading...")];
                  [("type", JStr "progress"); ("status", JStr "error");
                   ("message", JStr "Loading... failed: Connection error.")]])
  /\ Str.replace ("Loading" +:+ "..." +:+ " more...") "..." " ✓"
     = "Loading" +:+ " ✓" +:+ Str.replace " more..." "..." " ✓"
  /\ Str.replace "Loading" "..." " ✓" = "Loading".
Proof.
  split; [|split; [|split; [|split]]].
  - rewrite (proj1 (C6_progress_events trace "Loading..." EmptyString passes
                      (State [] [])) _ eq_refl).
    reflexivity.
  - rewrite (proj1 (C6_progress_events trace "Loading..." "Loaded" passes
                      (State [] [])) _ eq_refl).
    reflexivity.
  - rewrite (proj1 (proj2 (C6_progress_events trace "Loading..." EmptyString
                             (fails timeout) (State [] []))) _ _ eq_refl).
    reflexivity.
  - apply (proj1 (proj2 (proj2 (C6_progress_events trace "Loading..." EmptyString
                                  passes (State [] []))))).
    reflexivity.
  - apply (proj2 (proj2 (proj2 (C6_progress_events trace "Loading" EmptyString
                                  passes (State [] []))))).
    reflexivity.
Defined.

(** The wording of the specification and the code agree on the example
    of the specification. *)
Example completed_loading :
  completed "Loading..." EmptyString = "Loading ✓"
  /\ completed_as_stated "Loading..." EmptyString = "Loading ✓".
Proof. by split. Qed.

(** C6 as stated fails: the message [Fetching... page 2] does not end
    with an ellipsis, so the claim has it reused; the code replaces the
    ellipsis inside it. *)
Lemma C6_counterexample :
  progress trace "Fetching... page 2" EmptyString passes (State [] [])
  = (Returns tt,
     State [] [[("type", JStr "progress"); ("status", JStr "start");
                ("message", JStr "Fetching... page 2")];
               [("type", JStr "progress"); ("status", JStr "complete");
                ("message", JStr "Fetching ✓ page 2")]])
  /\ completed_as_stated "Fetching... page 2" EmptyString = "Fetching... page 2"
  /\ completed "Fetching... page 2" EmptyString
     <> completed_as_stated "Fetching... page 2" EmptyString.
Proof. split; [reflexivity | split; [reflexivity | discriminate]]. Qed.

End EventLoggerSpec.

(** ** The JSON encoder *)

Module JsonFacts.
Import Str Json StrFacts.

Lemma json_rect' (P : json -> Prop) :
  P JNull -> (forall b, P (JBool b)) -> (forall z, P (JInt z)) ->
  (forall r, P (JFloat r)) -> (forall s, P (JStr s)) ->
  (forall l, Forall P l -> P (JList l)) ->
  (forall d, Forall (fun kv => P (snd kv)) d -> P (JDict d)) ->
  forall v, P v.
Proof.
  intros H1 H2 H3 H4 H5 H6 H7. fix IH 1. intros [|b|z|r|s|l|d].
  - apply H1.
  - apply H2.
  - apply H3.
  - apply H4.
  - apply H5.
  - apply H6. induction l as [|v l IHl]; constructor; [apply IH | exact IHl].
  - apply H7. induction d as [|[k v] d IHd]; constructor; [apply IH | exact IHd].
Qed.

Lemma beyond_ascii_app s t : beyond_ascii (s +:+ t) = beyond_ascii s ++ beyond_ascii t.
Proof. unfold beyond_ascii. by rewrite to_bytes_app, List.filter_app. Qed.

Lemma beyond_ascii_join sep parts :
  beyond_ascii sep = [] ->
  beyond_ascii (join sep parts) = flat_map beyond_ascii parts.
Proof.
  intros Hsep. induction parts as [|x [|y parts] IH]; [done| |].
  - simpl. by rewrite app_nil_r.
  - change (join sep (x :: y :: parts)) with (x +:+ sep +:+ join sep (y :: parts)).
    rewrite !beyond_ascii_app, Hsep, IH. done.
Qed.

Lemma beyond_ascii_digits x s :
  beyond_ascii (pretty_N_go x s) = beyond_ascii s.
Proof.
  revert s. induction (N.lt_wf_0 x) as [x _ IH]; intros s.
  assert (x = 0 \/ 0 < x)%N as [->|Hx] by lia.
  - by rewrite pretty_N_go_0.
  - rewrite pretty_N_go_step by done. rewrite IH by (by apply N.div_lt).
    unfold beyond_ascii. cbn [Str.to_bytes list_ascii_of_string List.filter].
    replace (non_ascii (pretty_N_char (x `mod` 10))) with false; [done|].
    unfold pretty_N_char. by repeat case_match.
Qed.

Lemma beyond_ascii_int (z : Z) : beyond_ascii (pretty z) = [].
Proof.
  assert (forall n : N, beyond_ascii (pretty n) = []) as HN.
  { intros n. unfold pretty, pretty_N. case_decide; [done|].
    by rewrite beyond_ascii_digits. }
  destruct z as [|p|p]; [done|..].
  - apply (HN (Npos p)).
  - change (pretty (Zneg p)) with ("-" +:+ pretty (Npos p)).
    by rewrite beyond_ascii_app, HN.
Qed.

Lemma beyond_ascii_string s :
  beyond_ascii (encode_basestring false s) = beyond_ascii s.
Proof.
  unfold beyond_ascii. unfold encode_basestring.
  change (Str.to_bytes (String quote ?t)) with (quote :: Str.to_bytes t).
  rewrite to_bytes_app, to_of_bytes. cbn [List.filter].
  change (non_ascii quote) with false. cbv iota.
  rewrite List.filter_app. simpl. rewrite app_nil_r.
  induction (Str.to_bytes s) as [|c l IH]; [done|].
  cbn [flat_map]. rewrite List.filter_app, IH. simpl.
  by destruct c as [[] [] [] [] [] [] [] []].
Qed.

(** What [dumps] writes beyond ASCII is what the texts of the value hold
    beyond ASCII, byte for byte and in order. *)
Lemma dumps_beyond_ascii v :
  beyond_ascii (dumps false v) = List.filter non_ascii (texts v).
Proof.
  induction v as [|b|z|r|s|l IH|d IH] using json_rect'.
  - done.
  - by destruct b.
  - apply beyond_ascii_int.
  - done.
  - apply beyond_ascii_string.
  - cbn [dumps texts]. rewrite !beyond_ascii_app, beyond_ascii_join by done.
    simpl. rewrite app_nil_r.
    induction IH as [|v l Hv _ IHl]; [done|].
    cbn [map flat_map]. rewrite List.filter_app, Hv, IHl. done.
  - cbn [dumps texts]. rewrite !beyond_ascii_app, beyond_ascii_join by done.
    simpl. rewrite app_nil_r.
    induction IH as [|[k v] d Hv _ IHd]; [done|].
    cbn [map flat_map fst snd]. cbn [fst snd] in Hv.
    rewrite !beyond_ascii_app, beyond_ascii_string, Hv, IHd.
    rewrite !List.filter_app. done.
Qed.
End JsonFacts.

(** ** The session, the worker and the endpoint *)

Module ServerSpec.
Import Json Server EventLogger LoggerFacts Samples.

(** *** The stream *)

Lemma stream_loop_cons demand payload q :
  demand <> Some 0%nat ->
  stream_loop demand (payload :: q)
  = let fr := frame_of payload in
    let demand' := Nat.pred <$> demand in
    match demand' with
    | Some O => ([fr], q, Cancelled)
    | _ =>
        match is_terminal payload with
        | Raises e => ([fr], q, Failed e)
        | Returns true => ([fr], q, Stopped)
        | Returns false =>
            let '(frs, q'', ex) := stream_loop demand' q in (fr :: frs, q'', ex)
        end
    end.
Proof. by destruct demand as [[|k]|]. Qed.

Lemma stream_loop_shape q : forall demand frs rest ex,
  stream_loop demand q = (frs, rest, ex) ->
  exists evs, q = evs ++ rest /\ frs = map frame_of evs /\ shape demand evs rest ex.
Proof.
  assert (Hone : forall payload, exists pre : list dict,
             Forall non_terminal pre
             /\ ([payload] = pre \/ exists t, [payload] = pre ++ [t])).
  { intros payload. exists []. split; [constructor|]. right. by exists payload. }
  induction q as [|payload q IH]; intros demand frs rest ex H.
  - destruct demand as [[|k]|]; simpl in H; simplify_eq; exists [];
      (split; [done|]); (split; [done|]); simpl.
    + split; [done|]. exists []. split; [constructor | by left].
    + by split.
    + by split.
  - destruct (decide (demand = Some 0%nat)) as [->|Hd].
    { simpl in H. simplify_eq. exists []. split; [done|]. split; [done|].
      simpl. split; [done|]. exists []. split; [constructor | by left]. }
    rewrite stream_loop_cons in H by done. cbv zeta in H.
    assert (Hrec : forall d frs1 q1 ex1,
               (demand = None -> d = None) ->
               (forall k, demand = Some (S k) -> d = Some k) ->
               d <> Some 0%nat ->
               is_terminal payload = Returns false ->
               stream_loop d q = (frs1, q1, ex1) ->
               exists evs, payload :: q = evs ++ q1
                           /\ frame_of payload :: frs1 = map frame_of evs
                           /\ shape demand evs q1 ex1).
    { intros d frs1 q1 ex1 Hnone Hsome Hd0 Ht Hrec.
      apply IH in Hrec as (evs & -> & -> & Hs).
      exists (payload :: evs). split; [done|]. split; [done|].
      destruct ex1; simpl in *.
      - destruct Hs as (pre & t & -> & Hpre & Hterm).
        exists (payload :: pre), t. split; [done|]. split; [by constructor | done].
      - destruct Hs as (Hk & pre & Hpre & Hevs). split.
        + destruct demand as [[|k]|]; [done| |].
          * rewrite (Hsome k eq_refl) in Hk. by simplify_eq.
          * by rewrite Hnone in Hk.
        + exists (payload :: pre). split; [by constructor|].
          destruct Hevs as [->|[t ->]]; [by left | right; by exists t].
      - destruct Hs as (pre & t & -> & Hpre & Hterm).
        exists (payload :: pre), t. split; [done|]. split; [by constructor | done].
      - destruct Hs as [Hall ->]. split; [by constructor | done]. }
    destruct demand as [[|[|k]]|]; [done|..]; cbn [fmap option_fmap option_map Nat.pred] in H.
    + simplify_eq. exists [payload]. split; [done|]. split; [done|].
      simpl. split; [done|]. apply Hone.
    + destruct (is_terminal payload) as [[|]|e] eqn:Ht.
      * simplify_eq. exists [payload]. split; [done|]. split; [done|].
        by exists [], payload.
      * destruct (stream_loop (Some (S k)) q) as [[frs1 q1] ex1] eqn:Hq.
        injection H as <- <- <-.
        apply (Hrec (Some (S k)) frs1 q1 ex1); [done | by intros ? [= <-] | done..].
      * simplify_eq. exists [payload]. split; [done|]. split; [done|].
        by exists [], payload.
    + destruct (is_terminal payload) as [[|]|e] eqn:Ht.
      * simplify_eq. exists [payload]. split; [done|]. split; [done|].
        by exists [], payload.
      * destruct (stream_loop None q) as [[frs1 q1] ex1] eqn:Hq.
        injection H as <- <- <-. apply (Hrec None frs1 q1 ex1); done.
      * simplify_eq. exists [payload]. split; [done|]. split; [done|].
        by exists [], payload.
Qed.

Lemma stream_loop_complete pre t post :
  Forall non_terminal pre -> is_terminal t = Returns true ->
  stream_loop None (pre ++ t :: post) = (map frame_of (pre ++ [t]), post, Stopped).
Proof.
  intros Hpre Ht. induction Hpre as [|p pre Hp _ IH].
  - simpl. by rewrite Ht.
  - cbn [app]. rewrite stream_loop_cons by done. cbv zeta.
    cbn [fmap option_fmap option_map]. rewrite Hp, IH. done.
Qed.

Lemma terminal_false p : is_terminal p = Returns false -> terminal p = false.
Proof. unfold terminal. by intros ->. Qed.

Lemma filter_non_terminal pre :
  Forall non_terminal pre -> List.filter terminal pre = [].
Proof.
  induction 1 as [|p pre Hp _ IH]; [done|].
  simpl. by rewrite (terminal_false p Hp).
Qed.

(** In every run all events but the last one taken are of no terminal
    type. *)
Lemma shape_last demand evs rest ex :
  shape demand evs rest ex ->
  exists pre, Forall non_terminal pre /\ (evs = pre \/ exists t, evs = pre ++ [t]).
Proof.
  destruct ex; simpl.
  - intros (pre & t & -> & Hpre & _). exists pre. split; [done|]. right. by exists t.
  - by intros [_ H].
  - intros (pre & t & -> & Hpre & _). exists pre. split; [done|]. right. by exists t.
  - intros [H _]. exists evs. split; [done | by left].
Qed.

Lemma stream_yielded demand s frs s' ex :
  stream demand s = (frs, s', ex) ->
  exists evs,
    yielded demand s = evs /\ queue s = evs ++ queue s' /\ frs = map frame_of evs
    /\ shape demand evs (queue s') ex
    /\ finished s' = match ex with Waiting => finished s | _ => true end.
Proof.
  unfold yielded. intros H. rewrite H. cbn [fst]. unfold stream in H.
  destruct (stream_loop demand (queue s)) as [[frs1 q1] ex1] eqn:Hloop.
  injection H as <- <- <-. cbn [queue finished].
  apply stream_loop_shape in Hloop as (evs & Hq & -> & Hs).
  exists evs. rewrite Hq, length_map, take_app_length. done.
Qed.

(** C1, amended.  Whatever the queue holds and whenever the consumer
    goes away, the frames of a run of [stream] are the frames of the
    events taken from the head of the queue, in order; an event of a
    terminal type is the last one taken, so at most one is yielded and
    nothing follows it; a stream that stops by itself has yielded exactly
    one; every exit, by itself, by cancellation or by an exception, sets
    [finished]; and for a consumer that stays, a queue with a terminal
    event behind events of other types is streamed up to that event and
    then stops. *)
Theorem C1_stream_terminal_event demand s frs s' ex :
  stream demand s = (frs, s', ex) ->
  let evs := yielded demand s in
  frs = map frame_of evs /\ queue s = evs ++ queue s'
  /\ (forall i p, evs !! i = Some p -> terminal p = true -> S i = length evs)
  /\ (length (List.filter terminal evs) <= 1)%nat
  /\ (ex = Stopped -> length (List.filter terminal evs) = 1%nat)
  /\ (ex <> Waiting -> finished s' = true)
  /\ (demand = None ->
      forall pre t post,
        queue s = pre ++ t :: post -> Forall non_terminal pre ->
        is_terminal t = Returns true ->
        ex = Stopped /\ evs = pre ++ [t]).
Proof.
  intros H evs.
  destruct (stream_yielded demand s frs s' ex H) as (evs' & Hy & Hq & Hf & Hs & Hfin).
  subst evs. rewrite Hy. clear Hy.
  destruct (shape_last _ _ _ _ Hs) as (pre & Hpre & Hevs).
  split; [done|]. split; [done|]. split; [|split; [|split; [|split]]].
  - intros i p Hi Hp.
    assert (p ∉ pre) as Hnot.
    { intros Hin. rewrite Forall_forall in Hpre.
      apply Hpre, terminal_false in Hin. congruence. }
    destruct Hevs as [->|[t ->]].
    + destruct Hnot. by eapply list_elem_of_lookup_2.
    + apply lookup_app_Some in Hi as [Hi|[Hlen Hi]].
      * destruct Hnot. by eapply list_elem_of_lookup_2.
      * apply list_lookup_singleton_Some in Hi as [Hi _].
        rewrite length_app. simpl. lia.
  - destruct Hevs as [->|[t ->]].
    + rewrite filter_non_terminal by done. simpl. lia.
    + rewrite List.filter_app, filter_non_terminal by done. simpl.
      destruct (terminal t); simpl; lia.
  - intros ->. simpl in Hs. destruct Hs as (pre' & t & -> & Hpre' & Ht).
    rewrite List.filter_app, filter_non_terminal by done. simpl.
    unfold terminal. by rewrite Ht.
  - intros Hw. by destruct ex.
  - intros -> pre' t post Hq' Hpre' Ht.
    unfold stream in H. rewrite Hq', (stream_loop_complete pre' t post) in H by done.
    injection H as <- <- <-. split; [done|].
    cbn [queue] in Hq. rewrite Hq' in Hq.
    replace (pre' ++ t :: post) with ((pre' ++ [t]) ++ post) in Hq
      by (by rewrite <- app_assoc).
    by apply app_inv_tail in Hq.
Qed.

Lemma C1_witness :
  let s := session_of [log_event "thinking"; done_event "42"; log_event "late"] in
  length (List.filter terminal (yielded None s)) = 1%nat
  /\ yielded None s = [log_event "thinking"] ++ [done_event "42"]
  /\ finished (snd (fst (stream None s))) = true.
Proof.
  intros s.
  pose proof (C1_stream_terminal_event None s _ _ _ eq_refl)
    as (_ & _ & _ & _ & Hone & Hfin & Hall).
  split; [exact (Hone eq_refl)|]. split.
  - apply (Hall eq_refl [log_event "thinking"] (done_event "42") [log_event "late"]);
      [reflexivity | by repeat constructor | reflexivity].
  - apply Hfin. discriminate.
Defined.

(** C1 as stated fails: a consumer that goes away after the first frame
    ends the stream before the terminal event, so the stream has yielded
    no terminal event. *)
Lemma C1_counterexample :
  let s := session_of [log_event "thinking"; done_event "42"] in
  stream (Some 1%nat) s
  = ([frame_of (log_event "thinking")],
     {| queue := [done_event "42"]; finished := true; error := None |},
     Cancelled)
  /\ yielded (Some 1%nat) s = [log_event "thinking"]
  /\ length (List.filter terminal (yielded (Some 1%nat) s)) <> 1%nat.
Proof. split; [reflexivity | split; [reflexivity | discriminate]]. Qed.

(** *** The worker *)

Section Worker.
Variable Agent : Z -> Z -> string -> list call * outcome string.
Variable json_loads : string -> option json.

Lemma emit_all_ops ps ops :
  emit_all (fun p (ops : list session_op) => ops ++ [Emit p]) ps ops
  = ops ++ map Emit ps.
Proof.
  revert ops. induction ps as [|p ps IH]; intros ops.
  - simpl. by rewrite app_nil_r.
  - change (emit_all ?f (p :: ps) ops) with (emit_all f ps (ops ++ [Emit p])).
    rewrite IH. by rewrite <- app_assoc.
Qed.

Lemma worker_ops request calls result :
  Agent (fst (agent_args request)) (snd (agent_args request)) (query request)
  = (calls, result) ->
  worker Agent json_loads request
  = (Returns tt,
     map Emit (events_of json_loads calls) ++ [Emit (terminal_event result); SetFinished]).
Proof.
  intros HA. unfold worker. rewrite HA. cbv zeta.
  rewrite (run_calls_emits json_loads calls). cbn [world].
  rewrite emit_all_ops. cbn [app].
  destruct result; cbn [terminal_event]; by rewrite <- app_assoc.
Qed.

(** C2.  When the executor returns an answer the worker emits the
    executor's events and then [done] with the answer; when construction
    or [run] raises, it emits the events and then [error] with the text
    of the exception.  The worker itself always returns, and setting
    [finished] is its last step. *)
Theorem C2_worker_outcome request :
  let a := fst (agent_args request) in
  let b := snd (agent_args request) in
  (forall calls answer,
      Agent a b (query request) = (calls, Returns answer) ->
      worker Agent json_loads request
      = (Returns tt,
         map Emit (events_of json_loads calls)
         ++ [Emit [("type", JStr "done"); ("answer", JStr answer)]; SetFinished]))
  /\ (forall calls exc,
      Agent a b (query request) = (calls, Raises exc) ->
      worker Agent json_loads request
      = (Returns tt,
         map Emit (events_of json_loads calls)
         ++ [Emit [("type", JStr "error"); ("message", JStr (exc_str exc))];
             SetFinished]))
  /\ fst (worker Agent json_loads request) = Returns tt
  /\ last (snd (worker Agent json_loads request)) = Some SetFinished
  /\ (forall r σ,
      finished (objects (snd (run_worker Agent json_loads request r σ)) r) = true).
Proof.
  intros a b. subst a b.
  destruct (Agent (fst (agent_args request)) (snd (agent_args request)) (query request))
    as [calls result] eqn:HA.
  pose proof (worker_ops request calls result HA) as Hw.
  split; [|split; [|split; [|split]]].
  - intros calls' answer [= <- ->]. exact Hw.
  - intros calls' exc [= <- ->]. exact Hw.
  - by rewrite Hw.
  - rewrite Hw. cbn [snd]. by rewrite last_app.
  - intros r σ. unfold run_worker. rewrite Hw. cbn [snd objects on_session].
    rewrite fn_lookup_alter. unfold apply_ops. by rewrite fold_left_app.
Qed.

(** C9, amended.  The worker asks nothing of the executor but its
    behaviour at the arguments [agent_args] and the query.  A supplied
    value other than zero is passed on; 20 and 5 stand in for a value
    that is missing or zero. *)
Theorem C9_executor_arguments request :
  (forall Agent',
      Agent' (fst (agent_args request)) (snd (agent_args request)) (query request)
      = Agent (fst (agent_args request)) (snd (agent_args request)) (query request) ->
      worker Agent' json_loads request = worker Agent json_loads request)
  /\ (forall n, max_steps request = Some n -> n <> 0%Z -> fst (agent_args request) = n)
  /\ (max_steps request = None \/ max_steps request = Some 0%Z ->
      fst (agent_args request) = 20%Z)
  /\ (forall n, max_steps_per_task request = Some n -> n <> 0%Z ->
      snd (agent_args request) = n)
  /\ (max_steps_per_task request = None \/ max_steps_per_task request = Some 0%Z ->
      snd (agent_args request) = 5%Z).
Proof.
  split; [|split; [|split; [|split]]].
  - intros Agent' HA. unfold worker. by rewrite HA.
  - intros n Hn Hz. unfold agent_args, int_or. cbn [fst]. rewrite Hn.
    by apply Z.eqb_neq in Hz as ->.
  - intros [H|H]; unfold agent_args, int_or; cbn [fst]; by rewrite H.
  - intros n Hn Hz. unfold agent_args, int_or. cbn [snd]. rewrite Hn.
    by apply Z.eqb_neq in Hz as ->.
  - intros [H|H]; unfold agent_args, int_or; cbn [snd]; by rewrite H.
Qed.

End Worker.

Lemma C2_witness :
  worker planner (loads no_float) (ask "6 x 7?")
  = (Returns tt,
     [Emit [("type", JStr "header"); ("message", JStr "Plan")];
      Emit [("type", JStr "tool_run"); ("tool", JStr "search"); ("result", JStr "null")];
      Emit [("type", JStr "done"); ("answer", JStr "42")];
      SetFinished])
  /\ worker broken (loads no_float) (ask "6 x 7?")
     = (Returns tt,
        [Emit [("type", JStr "header"); ("message", JStr "Plan")];
         Emit [("type", JStr "error"); ("message", JStr "401")];
         SetFinished]).
Proof.
  split.
  - rewrite (proj1 (C2_worker_outcome planner (loads no_float) (ask "6 x 7?"))
               [Header "Plan"; ToolRun "search" "null"] "42" eq_refl).
    reflexivity.
  - rewrite (proj1 (proj2 (C2_worker_outcome broken (loads no_float) (ask "6 x 7?")))
               [Header "Plan"] refused eq_refl).
    reflexivity.
Defined.

Lemma C9_witness :
  let request := {| query := "6 x 7?"; max_steps := Some 3%Z;
                    max_steps_per_task := None |} in
  agent_args request = (3%Z, 5%Z)
  /\ agent_args {| query := "6 x 7?"; max_steps := Some 0%Z;
                   max_steps_per_task := Some 2%Z |} = (20%Z, 2%Z)
  /\ worker (fun a b q => planner 3 5 q) (loads no_float) request
     = worker planner (loads no_float) request.
Proof.
  intros request. split; [|split].
  - pose proof (C9_executor_arguments planner (loads no_float) request)
      as (_ & H1 & _ & _ & H2).
    apply injective_projections; [apply (H1 3%Z); done | apply H2; by left].
  - pose proof (C9_executor_arguments planner (loads no_float)
                  {| query := "6 x 7?"; max_steps := Some 0%Z;
                     max_steps_per_task := Some 2%Z |})
      as (_ & _ & H1 & H2 & _).
    apply injective_projections; [apply H1; by right | apply (H2 2%Z); done].
  - apply (proj1 (C9_executor_arguments planner (loads no_float) request)).
    reflexivity.
Defined.

(** C9 as stated fails: a caller that supplies zero gets the defaults. *)
Lemma C9_counterexample :
  let request := {| query := "6 x 7?"; max_steps := Some 0%Z;
                    max_steps_per_task := Some 0%Z |} in
  agent_args request = (20%Z, 5%Z)
  /\ agent_args_as_stated request = (0%Z, 0%Z)
  /\ agent_args request <> agent_args_as_stated request.
Proof. split; [reflexivity | split; [reflexivity | discriminate]]. Qed.

(** A session that its worker has fed is streamed to the end by a
    consumer that stays: every event is taken, the last one is the one
    terminal event, and the stream stops by itself. *)
Lemma stream_of_worker Agent json_loads request ops :
  snd (worker Agent json_loads request) = ops ->
  exists evs t,
    queue (apply_ops ops new_session) = evs ++ [t]
    /\ Forall non_terminal evs /\ is_terminal t = Returns true
    /\ stream None (apply_ops ops new_session)
       = (map frame_of (evs ++ [t]),
          {| queue := []; finished := true; error := None |}, Stopped).
Proof.
  destruct (Agent (fst (agent_args request)) (snd (agent_args request)) (query request))
    as [calls result] eqn:HA.
  rewrite (worker_ops Agent json_loads request calls result HA). cbn [snd].
  intros <-.
  exists (events_of json_loads calls), (terminal_event result).
  assert (apply_ops (map Emit (events_of json_loads calls)
                     ++ [Emit (terminal_event result); SetFinished]) new_session
          = {| queue := events_of json_loads calls ++ [terminal_event result];
               finished := true; error := None |}) as ->.
  { unfold apply_ops. rewrite fold_left_app. cbn [fold_left apply_op].
    assert (forall ps s, fold_left (fun s op => apply_op op s) (map Emit ps) s
                         = {| queue := queue s ++ ps; finished := finished s;
                              error := error s |}) as ->.
    { induction ps as [|p ps IH]; intros [q f e]; simpl.
      - by rewrite app_nil_r.
      - rewrite IH. simpl. by rewrite <- app_assoc. }
    done. }
  split; [done|]. split; [apply events_of_not_terminal|].
  split; [by destruct result|].
  unfold stream. cbn [queue].
  rewrite (stream_loop_complete _ _ []);
    [done | apply events_of_not_terminal | by destruct result].
Qed.

(** *** The registry *)

Lemma sessions_pop_idempotent run_id σ :
  sessions_pop run_id (sessions_pop run_id σ) = sessions_pop run_id σ.
Proof. unfold sessions_pop. cbn. by rewrite delete_delete_eq. Qed.

Lemma sessions_pop_absent run_id σ :
  sessions σ !! run_id = None -> sessions (sessions_pop run_id σ) = sessions σ.
Proof. intros H. cbn. by apply delete_id. Qed.

(** The entry of a run is removed as the last action of a generator
    that has passed on the terminal frame and seen the stream stop; any
    other end leaves the registry as it is. *)
Lemma event_generator_pop run_id session demand σ actions σ' ex :
  event_generator run_id session demand σ = (actions, σ', ex) ->
  (ex = Stopped ->
   actions = map Yield (frames_of actions) ++ [Pop run_id]
   /\ sessions σ' = delete run_id (sessions σ))
  /\ (ex <> Stopped ->
      actions = map Yield (frames_of actions) /\ sessions σ' = sessions σ).
Proof.
  unfold event_generator.
  destruct (stream demand (objects σ session)) as [[frs s'] ex1] eqn:Hs.
  assert (Hfr : forall frs, frames_of (map Yield frs) = frs).
  { unfold frames_of. induction frs0 as [|f frs0 IH]; [done|]. cbn. by f_equal. }
  destruct ex1; intros [= <- <- <-]; (split; [intros ?|intros ?]); try done.
  - split; [|done]. unfold frames_of. rewrite omap_app. simpl.
    fold (frames_of (map Yield frs)). by rewrite app_nil_r, Hfr.
  - by rewrite Hfr.
  - by rewrite Hfr.
  - by rewrite Hfr.
Qed.

(** C7.  The run [run-1] is registered and its worker is through.  A
    consumer that goes away after the first frame leaves the entry of the
    run in the registry: the generator ends without reaching the removal,
    and a later request for the events is answered with a stream, not
    with 404.  A consumer that stays sees the removal as the last action,
    behind the terminal frame. *)
Theorem C7_disconnect_keeps_run_registered :
  sessions served !! "run-1" = Some 0%nat
  /\ queue (objects served 0%nat)
     = [[("type", JStr "header"); ("message", JStr "Plan")];
        [("type", JStr "tool_run"); ("tool", JStr "search"); ("result", JStr "null")];
        [("type", JStr "done"); ("answer", JStr "42")]]
  /\ (let '(actions, σ', ex) := event_generator "run-1" 0 (Some 1%nat) served in
      actions = [Yield (frame_of [("type", JStr "header"); ("message", JStr "Plan")])]
      /\ ex = Cancelled
      /\ finished (objects σ' 0%nat) = true
      /\ sessions σ' !! "run-1" = Some 0%nat
      /\ stream_events "run-1" σ' = EventSourceResponse "run-1" 0)
  /\ (let '(actions, σ', ex) := event_generator "run-1" 0 None served in
      last actions = Some (Pop "run-1")
      /\ ex = Stopped
      /\ sessions σ' !! "run-1" = None
      /\ stream_events "run-1" σ' = HTTPException 404 "Run not found").
Proof. vm_compute. repeat split. Qed.

(** *** The endpoint *)

Lemma stream_loop_open q :
  Forall non_terminal q -> stream_loop None q = (map frame_of q, [], Waiting).
Proof.
  induction 1 as [|p q Hp _ IH]; [done|].
  rewrite stream_loop_cons by done. cbv zeta.
  cbn [fmap option_fmap option_map]. by rewrite Hp, IH.
Qed.

Lemma stream_loop_leave pre p rest :
  Forall non_terminal pre ->
  stream_loop (Some (S (length pre))) (pre ++ p :: rest)
  = (map frame_of (pre ++ [p]), rest, Cancelled).
Proof.
  induction 1 as [|a pre Ha _ IH]; [done|].
  cbn [app length]. rewrite stream_loop_cons by done. cbv zeta.
  cbn [fmap option_fmap option_map Nat.pred]. by rewrite Ha, IH.
Qed.

(** C8.  A run id without an entry in the registry is answered with
    404, and so is a run whose stream has stopped.  A registered run id
    is answered with a stream whose frames carry, in order, the JSON
    encoding of the events taken from the queue, one frame for each
    event.  A consumer that stays is given every event up to the first
    terminal one, that one included, and the stream stops; with no
    terminal event in the queue it is given every event, and the stream
    waits.  A consumer that goes away with a frame in hand has been
    given every event up to that one.  What a frame holds beyond ASCII
    is what the keys and the texts of its event hold beyond ASCII, byte
    for byte and in order: such a character is written as it is. *)
Theorem C8_stream_events run_id σ :
  (sessions σ !! run_id = None ->
   stream_events run_id σ = HTTPException 404 "Run not found")
  /\ (forall session,
      sessions σ !! run_id = Some session ->
      stream_events run_id σ = EventSourceResponse run_id session
      /\ forall demand actions σ' ex,
          event_generator run_id session demand σ = (actions, σ', ex) ->
          (exists evs,
              queue (objects σ session) = evs ++ queue (objects σ' session)
              /\ frames_of actions
                 = map (fun payload => Frame (dumps false (JDict payload))) evs)
          /\ (ex = Stopped ->
              stream_events run_id σ' = HTTPException 404 "Run not found")
          /\ (demand = None ->
              forall pre t post,
                queue (objects σ session) = pre ++ t :: post ->
                Forall non_terminal pre -> is_terminal t = Returns true ->
                frames_of actions
                = map (fun payload => Frame (dumps false (JDict payload))) (pre ++ [t])
                /\ ex = Stopped /\ queue (objects σ' session) = post)
          /\ (demand = None ->
              Forall non_terminal (queue (objects σ session)) ->
              frames_of actions
              = map (fun payload => Frame (dumps false (JDict payload)))
                    (queue (objects σ session))
              /\ ex = Waiting /\ queue (objects σ' session) = [])
          /\ (forall pre p rest,
              demand = Some (S (length pre)) ->
              queue (objects σ session) = pre ++ p :: rest ->
              Forall non_terminal pre ->
              frames_of actions
              = map (fun payload => Frame (dumps false (JDict payload))) (pre ++ [p])
              /\ ex = Cancelled /\ queue (objects σ' session) = rest))
  /\ (forall payload,
      beyond_ascii (data (frame_of payload))
      = List.filter Str.non_ascii (texts (JDict payload)))
  /\ (forall c, Str.non_ascii c = true -> escape_char c = [c]).
Proof.
  split; [|split; [|split]].
  - intros H. unfold stream_events. by rewrite H.
  - intros session H. split; [unfold stream_events; by rewrite H|].
    intros demand actions σ' ex Hg.
    pose proof (event_generator_pop _ _ _ _ _ _ _ Hg) as [Hstop Hother].
    unfold event_generator in Hg.
    destruct (stream demand (objects σ session)) as [[frs s'] ex1] eqn:Hs.
    destruct (stream_yielded _ _ _ _ _ Hs) as (evs & _ & Hq & Hf & _).
    assert (objects σ' session = s' /\ frames_of actions = frs /\ ex = ex1)
      as (Hobj & Hfr & ->).
    { assert (Hfr : forall frs, frames_of (map Yield frs) = frs).
      { unfold frames_of. induction frs0 as [|f frs0 IH]; [done|]. cbn. by f_equal. }
      destruct ex1; injection Hg as <- <- <-; cbn [objects sessions_pop on_session];
        rewrite fn_lookup_alter; (split; [done|]); (split; [|done]);
        rewrite ?Hfr; try done.
      unfold frames_of. rewrite omap_app. cbn.
      fold (frames_of (map Yield frs)). by rewrite app_nil_r, Hfr. }
    rewrite Hobj, Hfr.
    split; [by exists evs|]. split; [|split; [|split]].
    + intros ->. destruct (Hstop eq_refl) as [_ Hsess].
      unfold stream_events. by rewrite Hsess, lookup_delete_eq.
    + intros -> pre t post Hqueue Hpre Ht. unfold stream in Hs.
      rewrite Hqueue, (stream_loop_complete pre t post) in Hs by done.
      by injection Hs as <- <- <-.
    + intros -> Hall. unfold stream in Hs.
      rewrite (stream_loop_open _ Hall) in Hs.
      by injection Hs as <- <- <-.
    + intros pre p rest -> Hqueue Hpre. unfold stream in Hs.
      rewrite Hqueue, (stream_loop_leave pre p rest) in Hs by done.
      by injection Hs as <- <- <-.
  - intros payload. apply JsonFacts.dumps_beyond_ascii.
  - intros c. by destruct c as [[] [] [] [] [] [] [] []].
Qed.

(** With [ensure_ascii=False] the text of an event goes into the frame
    as it is; the default would have written escapes. *)
Example frame_of_accented :
  data (frame_of accented)
  = "{" +:+ quoted "type" +:+ ": " +:+ quoted "log" +:+ ", "
    +:+ quoted "message" +:+ ": " +:+ quoted "café ✓" +:+ "}"
  /\ dumps true (JDict accented)
     = "{" +:+ quoted "type" +:+ ": " +:+ quoted "log" +:+ ", "
       +:+ quoted "message" +:+ ": " +:+ quoted "caf\u00e9 \u2713" +:+ "}".
Proof. by split. Qed.

Lemma C8_witness :
  let header := [("type", JStr "header"); ("message", JStr "Plan")] in
  let tool_run :=
    [("type", JStr "tool_run"); ("tool", JStr "search"); ("result", JStr "null")] in
  stream_events "run-2" served = HTTPException 404 "Run not found"
  /\ stream_events "run-1" served = EventSourceResponse "run-1" 0
  /\ stream_events "run-1" (snd (fst (event_generator "run-1" 0 None served)))
     = HTTPException 404 "Run not found"
  /\ frames_of (fst (fst (event_generator "run-1" 0 None served)))
     = [frame_of header; frame_of tool_run; frame_of (done_event "42")]
  /\ frames_of (fst (fst (event_generator "run-1" 0 (Some 2%nat) served)))
     = [frame_of header; frame_of tool_run]
  /\ escape_char (ascii_of_N 195) = [ascii_of_N 195].
Proof.
  intros header tool_run.
  pose proof (C8_stream_events "run-2" served) as (H404 & _).
  pose proof (C8_stream_events "run-1" served) as (_ & Hrun & _ & Hc).
  destruct (Hrun 0%nat eq_refl) as [Hresp Hgen].
  split; [exact (H404 eq_refl)|]. split; [exact Hresp|].
  split; [|split; [|split]].
  - destruct (event_generator "run-1" 0 None served) as [[actions σ'] ex] eqn:Hg.
    apply (proj1 (proj2 (Hgen None actions σ' ex Hg))).
    apply (f_equal snd) in Hg. vm_compute in Hg. by symmetry.
  - destruct (event_generator "run-1" 0 None served) as [[actions σ'] ex] eqn:Hg.
    destruct (Hgen None actions σ' ex Hg) as (_ & _ & Hstay & _).
    apply (Hstay eq_refl [header; tool_run] (done_event "42") []);
      [reflexivity | by repeat constructor | reflexivity].
  - destruct (event_generator "run-1" 0 (Some 2%nat) served)
      as [[actions σ'] ex] eqn:Hg.
    destruct (Hgen (Some 2%nat) actions σ' ex Hg) as (_ & _ & _ & _ & Hleave).
    apply (Hleave [header] tool_run [done_event "42"]);
      [reflexivity | reflexivity | by repeat constructor].
  - apply Hc. reflexivity.
Defined.
End ServerSpec.

(** * Further properties *)

(** ** The model call *)

Module ModelProps.
Import Model Samples.

Abbreviation TOOL_BIND := "DEXTER_LLM_TOOL_BIND".

Section Props.
Context {Schema Tool Response : Type}.
Variable DEFAULT_SYSTEM_PROMPT : string.
Variable invoke : @chain Schema Tool -> string -> nat -> outcome Response.

(** X1.  Tool binding (lines 45-50).  Without an output schema, a list of
    tools that is not empty is bound exactly when the selector, trimmed
    and in lower case, is [bind], which is also what a selector that is
    not set stands for; every other value, the empty one too, leaves the
    model unbound.  No tools, or an empty list, are never bound.  With
    an output schema the tools and their selector play no part. *)
Theorem tools_bound_only_for_bind env prompt system_prompt (t : Tool) ts w :
  let mode := Str.lower (Str.strip (getenv env TOOL_BIND "bind")) in
  let call output_schema tools :=
    call_llm DEFAULT_SYSTEM_PROMPT invoke env prompt system_prompt output_schema tools w in
  let call_with target :=
    retry invoke (Chain (prompt_template DEFAULT_SYSTEM_PROMPT system_prompt) target)
          prompt (seq 0 3) w in
  (mode = "bind" -> call None (Some (t :: ts)) = call_with (Bind_tools (t :: ts)))
  /\ (mode <> "bind" -> call None (Some (t :: ts)) = call_with Llm)
  /\ (env !! TOOL_BIND = None -> call None (Some (t :: ts)) = call_with (Bind_tools (t :: ts)))
  /\ (env !! TOOL_BIND = Some EmptyString -> call None (Some (t :: ts)) = call_with Llm)
  /\ call None (Some []) = call_with Llm
  /\ call None None = call_with Llm
  /\ (forall schema tools value,
      call_llm DEFAULT_SYSTEM_PROMPT invoke (<[TOOL_BIND := value]> env) prompt
               system_prompt (Some schema) tools w
      = call (Some schema) None).
Proof.
  intros mode call call_with. subst call call_with.
  unfold call_llm, select_runnable. fold mode.
  split; [|split; [|split; [|split; [|split; [|split]]]]]; try done.
  - by intros ->.
  - intros H. apply String.eqb_neq in H. by rewrite H.
  - intros H. subst mode. unfold getenv. by rewrite H.
  - intros H. subst mode. unfold getenv. by rewrite H.
  - intros schema tools value. unfold getenv.
    by rewrite lookup_insert_ne.
Qed.

(** X2.  The retry loop (lines 55-61), for every provider.  A call invokes
    the provider at least once and at most three times; every invocation
    but the last has failed with a connection error, and the call has
    slept after each of them, for 0.5 and then 1.0 seconds, and at no
    other time.  It ends with what the last invocation did: its response,
    or its exception, which is no connection error unless it is that of
    the third invocation.  The loop never runs out, so the call never
    returns [None]. *)
Theorem call_llm_bounded env prompt system_prompt output_schema tools res w :
  call_llm DEFAULT_SYSTEM_PROMPT invoke env prompt system_prompt output_schema tools fresh
  = (res, w) ->
  let c := Chain (prompt_template DEFAULT_SYSTEM_PROMPT system_prompt)
                 (select_runnable env output_schema tools) in
  (1 <= invocations w <= 3)%nat
  /\ transient_failures invoke c prompt (invocations w - 1) = true
  /\ slept w = map backoff (seq 0 (invocations w - 1))
  /\ ((exists r, res = Returns (Some r)
                 /\ invoke c prompt (invocations w - 1) = Returns r)
      \/ (exists e, res = Raises e
                    /\ invoke c prompt (invocations w - 1) = Raises e
                    /\ (is_APIConnectionError e = true -> invocations w = 3%nat))).
Proof.
  intros H c. unfold call_llm in H. fold c in H. cbv zeta in H. simpl seq in H.
  rewrite !ModelSpec.retry_step in H. simpl in H. unfold transient_failures.
  destruct (invoke c prompt 0) as [r0|e0] eqn:H0.
  { injection H as <- <-. simpl. split; [lia|]. split; [done|]. split; [done|].
    left. by exists r0. }
  destruct (is_APIConnectionError e0) eqn:E0.
  2:{ injection H as <- <-. simpl. split; [lia|]. split; [done|]. split; [done|].
      right. exists e0. split; [done|]. split; [done|]. by rewrite E0. }
  destruct (invoke c prompt 1) as [r1|e1] eqn:H1.
  { injection H as <- <-. simpl. rewrite H0, E0. split; [lia|]. split; [done|].
    split; [done|]. left. by exists r1. }
  destruct (is_APIConnectionError e1) eqn:E1.
  2:{ injection H as <- <-. simpl. rewrite H0, E0. split; [lia|]. split; [done|].
      split; [done|]. right. exists e1. split; [done|]. split; [done|]. by rewrite E1. }
  destruct (invoke c prompt 2) as [r2|e2] eqn:H2.
  { injection H as <- <-. simpl. rewrite H0, E0, H1, E1. split; [lia|]. split; [done|].
    split; [done|]. left. by exists r2. }
  destruct (is_APIConnectionError e2);
    injection H as <- <-; simpl; rewrite H0, E0, H1, E1;
    (split; [lia|]); (split; [done|]); (split; [done|]);
    right; exists e2; done.
Qed.

(** X3.  The system prompt (lines 29-34).  The chain has two messages, the
    system prompt and the user's template.  A system prompt that is not
    given or is empty is replaced by the default; any other text, one of
    blanks only too, is used as it is.  The text of the request is no
    part of the template: it is handed to the provider at each
    invocation. *)
Theorem empty_system_prompt_is_default env prompt output_schema tools w :
  let call system_prompt :=
    call_llm DEFAULT_SYSTEM_PROMPT invoke env prompt system_prompt output_schema tools w in
  let call_with system :=
    retry invoke (Chain [("system", system); ("user", "{prompt}")]
                        (select_runnable env output_schema tools))
          prompt (seq 0 3) w in
  call None = call_with DEFAULT_SYSTEM_PROMPT
  /\ call (Some EmptyString) = call_with DEFAULT_SYSTEM_PROMPT
  /\ (forall s, s <> EmptyString -> call (Some s) = call_with s).
Proof.
  intros call call_with. subst call call_with.
  unfold call_llm, prompt_template, final_system_prompt.
  split; [done|]. split; [done|].
  intros s Hs. by destruct s.
Qed.
End Props.

Lemma tools_bound_witness :
  call_llm "You are Dexter." (provider [Returns "4"]) (env_of TOOL_BIND " Bind ")
           "2+2?" None None (Some ["search"]) fresh
  = retry (provider [Returns "4"])
          (Chain (prompt_template "You are Dexter." None) (Bind_tools ["search"]))
          "2+2?" (seq 0 3) fresh
  /\ call_llm "You are Dexter." (provider [Returns "4"]) (env_of TOOL_BIND "off")
              "2+2?" None None (Some ["search"]) fresh
     = retry (provider [Returns "4"])
             (Chain (prompt_template "You are Dexter." None) Llm)
             "2+2?" (seq 0 3) fresh.
Proof.
  split.
  - apply (proj1 (tools_bound_only_for_bind "You are Dexter." (provider [Returns "4"])
                    (env_of TOOL_BIND " Bind ") "2+2?" None "search" [] fresh)).
    reflexivity.
  - apply (proj1 (proj2 (tools_bound_only_for_bind "You are Dexter."
                           (provider [Returns "4"])
                           (env_of TOOL_BIND "off") "2+2?" None "search" [] fresh))).
    intros H. vm_compute in H. discriminate H.
Defined.

Lemma call_llm_bounded_witness :
  let run := call_llm "You are Dexter." (provider [Raises timeout; Returns "4"])
                      ∅ "2+2?" None None None fresh in
  (1 <= invocations (snd run) <= 3)%nat
  /\ slept (snd run) = map backoff (seq 0 (invocations (snd run) - 1)).
Proof.
  intros run.
  destruct (call_llm_bounded "You are Dexter." (provider [Raises timeout; Returns "4"])
              ∅ "2+2?" None None None (fst run) (snd run) eq_refl)
    as (H1 & _ & H2 & _).
  split; [exact H1 | exact H2].
Defined.

Lemma system_prompt_witness :
  call_llm "You are Dexter." (provider [Returns "4"]) ∅ "2+2?" (Some EmptyString)
           None None fresh
  = call_llm "You are Dexter." (provider [Returns "4"]) ∅ "2+2?" None None None fresh
  /\ call_llm "You are Dexter." (provider [Returns "4"]) ∅ "2+2?" (Some " ")
              None None fresh
     = retry (provider [Returns "4"]) (Chain [("system", " "); ("user", "{prompt}")] Llm)
             "2+2?" (seq 0 3) fresh.
Proof.
  destruct (empty_system_prompt_is_default "You are Dexter." (provider [Returns "4"])
              ∅ "2+2?" None None fresh) as (H1 & H2 & H3).
  split.
  - etrans; [exact H2 | symmetry; exact H1].
  - apply (H3 " "). discriminate.
Defined.
End ModelProps.

(** ** The logger *)

Module LoggerProps.
Import Json EventLogger LoggerFacts LoggerTerms Samples MoreSamples.

(** *** Dicts *)

Lemma get_set_eq key v d : get key (set key v d) = Some v.
Proof.
  induction d as [|[k v0] d IH]; simpl.
  - by rewrite String.eqb_refl.
  - destruct (String.eqb k key) eqn:E; simpl; rewrite E; [done | exact IH].
Qed.

Lemma get_set_ne key key' v d :
  key <> key' -> get key' (set key v d) = get key' d.
Proof.
  intros Hne. induction d as [|[k v0] d IH]; simpl.
  - by apply String.eqb_neq in Hne as ->.
  - destruct (String.eqb k key) eqn:E; simpl.
    + apply String.eqb_eq in E as ->. by apply String.eqb_neq in Hne as ->.
    + by rewrite IH.
Qed.

Lemma set_get_id key v d : get key d = Some v -> set key v d = d.
Proof.
  induction d as [|[k v0] d IH]; simpl; [done|].
  destruct (String.eqb k key) eqn:E.
  - by intros [= ->].
  - intros H. by rewrite IH.
Qed.

Lemma set_keys_present key v d :
  is_Some (get key d) -> map fst (set key v d) = map fst d.
Proof.
  induction d as [|[k v0] d IH]; simpl; [by intros [? [=]]|].
  destruct (String.eqb k key) eqn:E; simpl; [done|].
  intros H. by rewrite IH.
Qed.

Lemma set_keys_absent key v d :
  get key d = None -> map fst (set key v d) = map fst d ++ [key].
Proof.
  induction d as [|[k v0] d IH]; simpl; [done|].
  destruct (String.eqb k key) eqn:E; simpl; [done|].
  intros H. by rewrite IH.
Qed.

Section Props.
Variable json_loads : string -> option json.

(** X4.  [log_task_list] (lines 27-35).  The event lists the tasks in their
    order, each with a [done] field that holds a boolean: the truth value
    of the task's own [done], and false when the task has none.  The
    other fields keep their values, the fields keep their order, and a
    missing [done] comes last.  Tasks that hold a boolean [done] already
    are passed on as they are. *)
Theorem task_list_normalized tasks :
  events json_loads (TaskList tasks)
  = [[("type", JStr "task_list"); ("tasks", JList (map JDict (map normalize tasks)))]]
  /\ (forall task,
      get "done" (normalize task)
      = Some (JBool (match get "done" task with
                     | Some v => truthy v
                     | None => false
                     end))
      /\ (forall key, key <> "done" -> get key (normalize task) = get key task)
      /\ (is_Some (get "done" task) -> map fst (normalize task) = map fst task)
      /\ (get "done" task = None -> map fst (normalize task) = map fst task ++ ["done"])
      /\ (forall b, get "done" task = Some (JBool b) -> normalize task = task)
      /\ normalize (normalize task) = normalize task).
Proof.
  split; [done|]. intros task. unfold normalize.
  split; [|split; [|split; [|split; [|split]]]].
  - rewrite get_set_eq. by destruct (get "done" task).
  - intros key Hk. by rewrite get_set_ne.
  - apply set_keys_present.
  - apply set_keys_absent.
  - intros b Hb. rewrite Hb. by apply set_get_id.
  - rewrite get_set_eq. cbn [default truthy]. apply set_get_id, get_set_eq.
Qed.

Lemma events_tool_run tool result :
  events json_loads (ToolRun tool result) = [tool_run_payload json_loads tool result].
Proof. done. Qed.

(** The events of a list of calls are the events of its calls. *)
Lemma events_of_cons c calls :
  events_of json_loads (c :: calls) = events json_loads c ++ events_of json_loads calls.
Proof. by rewrite !events_of_flat_map. Qed.

(** A property of the events of every call that holds for the events of
    the methods and goes through [progress] blocks. *)
Lemma events_of_Forall (P : dict -> Prop) :
  (forall c, match c with Progress _ _ _ _ => True
             | _ => Forall P (events json_loads c) end) ->
  (forall message success_message raised,
      P [("type", JStr "progress"); ("status", JStr "start"); ("message", JStr message)]
      /\ P (match raised with
            | Some exc =>
                [("type", JStr "progress"); ("status", JStr "error");
                 ("message", JStr (message +:+ " failed: " +:+ exc_str exc))]
            | None =>
                [("type", JStr "progress"); ("status", JStr "complete");
                 ("message", JStr (completed message success_message))]
            end)) ->
  forall calls, Forall P (events_of json_loads calls).
Proof.
  intros Hsimple Hprogress.
  assert (forall c, Forall P (events json_loads c)) as Hc.
  { induction c as [| | | | | | | | |message success_message body raised IH]
      using call_rect';
      try match goal with |- Forall P (events _ ?c) => exact (Hsimple c) end.
    rewrite events_progress, events_of_flat_map.
    destruct (Hprogress message success_message raised) as [Hs He].
    constructor; [done|]. apply Forall_app. split.
    - induction IH as [|c body Hc _ IHb]; [done|].
      cbn [flat_map]. apply Forall_app. by split.
    - by constructor. }
  intros calls. rewrite events_of_flat_map.
  induction calls as [|c calls IH]; [done|].
  cbn [flat_map]. apply Forall_app. by split.
Qed.

(** X5.  The logger (lines 17-82), for every decoder and every use of it.
    Each event it emits has a [type] field that holds one of the ten
    types of its methods; [done] and [error] are not among them, so no
    event of the logger ends a stream. *)
Theorem logger_event_types calls :
  Forall (fun payload =>
            exists t, get "type" payload = Some (JStr t) /\ In t logger_types
                      /\ t <> "done" /\ t <> "error"
                      /\ Server.is_terminal payload = Returns false)
         (events_of json_loads calls).
Proof.
  apply events_of_Forall.
  - assert (forall t payload,
               get "type" payload = Some (JStr t) -> In t logger_types ->
               Forall (fun payload =>
                         exists t, get "type" payload = Some (JStr t)
                                   /\ In t logger_types /\ t <> "done" /\ t <> "error"
                                   /\ Server.is_terminal payload = Returns false)
                      [payload]) as Hone.
    { intros t payload Ht Hin. constructor; [|done]. exists t.
      split; [done|]. split; [done|].
      assert (t <> "done" /\ t <> "error") as [Hd He].
      { cbn in Hin. split; intros ->; repeat (destruct Hin as [Hin|Hin]; try done). }
      split; [done|]. split; [done|].
      unfold Server.is_terminal. rewrite Ht.
      apply String.eqb_neq in Hd, He. by rewrite Hd, He. }
    intros [msg|msg|query|tasks|task|task|tool result|tool input|summary|? ? ? ?];
      cbv iota; [..|done].
    + apply (Hone "log"); [done | cbn; tauto].
    + apply (Hone "header"); [done | cbn; tauto].
    + apply (Hone "user_query"); [done | cbn; tauto].
    + apply (Hone "task_list"); [done | cbn; tauto].
    + apply (Hone "task_start"); [done | cbn; tauto].
    + apply (Hone "task_done"); [done | cbn; tauto].
    + rewrite events_tool_run.
      apply (Hone "tool_run"); [apply tool_run_payload_type | cbn; tauto].
    + apply (Hone "warning"); [done | cbn; tauto].
    + apply (Hone "answer"); [done | cbn; tauto].
  - intros message success_message raised.
    split; [|destruct raised]; exists "progress"; repeat split; try done; cbn; tauto.
Qed.

(** X6.  [_log] (lines 17-19) keeps a record: after any use of the logger,
    [self.log] has grown by the messages given to [_log], in order, and
    these are the messages of the [log] events emitted.  No other method
    touches the record. *)
Theorem log_records_log_events calls {W} (emit : EventPayload -> W -> W) st :
  log (run_calls emit json_loads calls st) = log st ++ flat_map messages calls
  /\ flat_map messages calls = omap log_message (events_of json_loads calls).
Proof.
  assert (forall c W (emit : EventPayload -> W -> W) st,
             log (run_call emit json_loads c st) = log st ++ messages c) as Hlog.
  { induction c as [| | | | | | | | |message success_message body raised IH]
      using call_rect'; intros W0 emit0 st0;
      try (cbn; by rewrite ?app_nil_r).
    cbn [run_call messages]. unfold progress.
    assert (forall st1,
               log (fold_left (fun st2 c' => run_call emit0 json_loads c' st2) body st1)
               = log st1 ++ flat_map messages body) as Hbody.
    { induction IH as [|c body Hc _ IHb]; intros st1; cbn [fold_left flat_map].
      - by rewrite app_nil_r.
      - by rewrite IHb, Hc, app_assoc. }
    destruct raised; cbn [snd]; unfold do_emit; cbn [log]; by rewrite Hbody. }
  assert (forall c, messages c = omap log_message (events json_loads c)) as Hev.
  { induction c as [| | | | | |tool result| | |message success_message body raised IH]
      using call_rect'; try done.
    - rewrite events_tool_run. cbn [messages].
      assert (log_message (tool_run_payload json_loads tool result) = None) as Hn
        by (unfold log_message; by rewrite tool_run_payload_type).
      cbn. by rewrite Hn.
    - assert (forall (p : dict) l,
                 log_message p = None -> omap log_message (p :: l) = omap log_message l)
        as Hskip by (intros p l Hp; cbn; by rewrite Hp).
      rewrite events_progress, events_of_flat_map. cbn [messages].
      rewrite Hskip by done. rewrite omap_app.
      rewrite (Hskip _ []) by (by destruct raised).
      rewrite app_nil_r.
      induction IH as [|c body Hc _ IHb]; [done|].
      cbn [flat_map]. by rewrite omap_app, Hc, IHb. }
  split.
  - revert st. induction calls as [|c calls IH]; intros st.
    + cbn. by rewrite app_nil_r.
    + rewrite run_calls_cons, IH, Hlog. cbn [flat_map]. by rewrite app_assoc.
  - rewrite events_of_flat_map.
    induction calls as [|c calls IH]; [done|].
    cbn [flat_map]. by rewrite omap_app, Hev, IH.
Qed.



(** X8.  A callback that raises (lines 17-19, 67-82).  [_log] has
    recorded its message when the callback raises.  In [progress], an
    exception of the callback at the [start] event leaves the block
    unentered: the block is not run and nothing more is emitted.  When
    the block ends normally and the callback raises at the [complete]
    event, the callback is handed an [error] event more, with the
    message, the text [failed:] and the text of its own exception, and
    that exception is raised.  When the block raises, the callback is
    handed the [error] event and the exception of the block is raised.
    In both cases an exception of the callback at the [error] event is
    the one that is raised.  With a callback that never raises the
    logger is the one of [EventLogger]. *)
Theorem progress_with_raising_callback {W} (emit : EventPayload -> W -> outcome unit * W)
    message success_message (body : state W -> outcome unit * state W) st :
  let event status text :=
    [("type", JStr "progress"); ("status", JStr status); ("message", JStr text)] in
  let failed exc := event "error" (message +:+ " failed: " +:+ exc_str exc) in
  let raised (exc : pyexc) (res : outcome unit) : outcome unit :=
    match res with Returns _ => Raises exc | Raises exc' => Raises exc' end in
  let run := FallibleLogger.progress emit message success_message body st in
  (forall msg, log (snd (FallibleLogger._log emit msg st)) = log st ++ [msg])
  /\ (forall exc w1,
      emit (event "start" message) (world st) = (Raises exc, w1) ->
      run = (Raises exc, State (log st) w1))
  /\ (forall w1 st2 exc w3 res w4,
      emit (event "start" message) (world st) = (Returns tt, w1) ->
      body (State (log st) w1) = (Returns tt, st2) ->
      emit (event "complete" (completed message success_message)) (world st2)
      = (Raises exc, w3) ->
      emit (failed exc) w3 = (res, w4) ->
      run = (raised exc res, State (log st2) w4))
  /\ (forall w1 st2 exc res w3,
      emit (event "start" message) (world st) = (Returns tt, w1) ->
      body (State (log st) w1) = (Raises exc, st2) ->
      emit (failed exc) (world st2) = (res, w3) ->
      run = (raised exc res, State (log st2) w3))
  /\ ((forall payload w, fst (emit payload w) = Returns tt) ->
      run = progress (fun payload w => snd (emit payload w)) message success_message
                     body st).
Proof.
  intros event failed raised run. subst event failed raised run.
  unfold FallibleLogger.progress, FallibleLogger._log, FallibleLogger.do_emit.
  split; [|split; [|split; [|split; [|]]]].
  - intros msg. cbn [world log]. by destruct (emit _ (world st)).
  - intros exc w1 H1. by rewrite H1.
  - intros w1 st2 exc w3 res w4 H1 H2 H3 H4. rewrite H1, H2, H3. cbn [world log].
    rewrite H4. by destruct res as [[]|].
  - intros w1 st2 exc res w3 H1 H2 H3. rewrite H1, H2, H3. by destruct res as [[]|].
  - intros Hok. unfold progress, do_emit.
    assert (forall payload w, emit payload w = (Returns tt, snd (emit payload w))) as Hret.
    { intros payload w. specialize (Hok payload w).
      destruct (emit payload w) as [res w']. cbn [fst snd] in *. by rewrite Hok. }
    rewrite (Hret _ (world st)).
    destruct (body _) as [[[]|exc] st2].
    + by rewrite (Hret _ (world st2)).
    + by rewrite (Hret _ (world st2)).
Qed.
End Props.

Lemma raising_callback_witness :
  FallibleLogger.progress (refusing "complete") "Loading..." EmptyString passes
                          (State [] [])
  = (Raises refused,
     State [] [[("type", JStr "progress"); ("status", JStr "start");
                ("message", JStr "Loading...")];
               [("type", JStr "progress"); ("status", JStr "complete");
                ("message", JStr "Loading ✓")];
               [("type", JStr "progress"); ("status", JStr "error");
                ("message", JStr "Loading... failed: 401")]])
  /\ FallibleLogger.progress (refusing "start") "Loading..." EmptyString passes
                             (State [] [])
     = (Raises refused,
        State [] [[("type", JStr "progress"); ("status", JStr "start");
                   ("message", JStr "Loading...")]]).
Proof.
  pose proof (progress_with_raising_callback (refusing "complete") "Loading..."
                EmptyString passes (State [] [])) as (_ & _ & Hcomplete & _).
  pose proof (progress_with_raising_callback (refusing "start") "Loading..."
                EmptyString passes (State [] [])) as (_ & Hstart & _).
  split.
  - etrans; [|reflexivity].
    apply (Hcomplete _ _ refused _ (Returns tt) _ eq_refl eq_refl eq_refl eq_refl).
  - etrans; [|reflexivity].
    apply (Hstart refused _ eq_refl).
Defined.

Lemma task_list_witness :
  get "done" (normalize told) = Some (JBool true)
  /\ map fst (normalize told) = ["id"; "done"; "description"]
  /\ map fst (normalize untold) = ["id"; "done"].
Proof.
  destruct (task_list_normalized (loads no_float) [told; untold]) as [_ H].
  destruct (H told) as (H1 & _ & H2 & _).
  destruct (H untold) as (_ & _ & _ & H3 & _).
  split; [exact H1|]. split.
  - apply H2. by eexists.
  - apply H3. reflexivity.
Defined.
End LoggerProps.

(** ** The session, the registry and the runs *)

Module ServerProps.
Import Json Server EventLogger LoggerFacts ServerSpec ServerTerms Samples MoreSamples.

(** *** The stream and its consumer *)

Lemma stream_loop_take q : forall k,
  stream_loop (Some k) q
  = let '(frs, rest, ex) := stream_loop None q in
    if (k <=? length frs)%nat then (take k frs, drop k q, Cancelled)
    else (frs, rest, ex).
Proof.
  induction q as [|payload q IH]; intros k.
  - destruct k; reflexivity.
  - destruct k as [|k].
    { by destruct (stream_loop None (payload :: q)) as [[frs rest] ex]. }
    rewrite !stream_loop_cons by done. cbv zeta.
    cbn [fmap option_fmap option_map Nat.pred].
    destruct k as [|k].
    + destruct (is_terminal payload) as [[|]|e]; try done.
      by destruct (stream_loop None q) as [[frs rest] ex].
    + destruct (is_terminal payload) as [[|]|e]; try done.
      rewrite IH. destruct (stream_loop None q) as [[frs rest] ex].
      cbn [length]. change (S (S k) <=? S (length frs))%nat with (S k <=? length frs)%nat.
      by destruct (S k <=? length frs)%nat.
Qed.

(** X9.  [stream] (lines 41-51) and the patience of its consumer.  A
    consumer that goes away with its [n]-th frame in hand has got the
    first [n] frames of what a consumer that stays gets; the events
    behind them are still in the queue, and [finished] is set.  A
    consumer that asks for more than there is sees the stream as one
    that stays does. *)
Theorem stream_patience k s :
  let n := S k in
  stream (Some n) s
  = let '(frs, s', ex) := stream None s in
    if (n <=? length frs)%nat
    then (take n frs,
          {| queue := drop n (queue s); finished := true; error := error s |},
          Cancelled)
    else (frs, s', ex).
Proof.
  intros n. unfold stream. rewrite stream_loop_take.
  destruct (stream_loop None (queue s)) as [[frs rest] ex].
  by destruct (n <=? length frs)%nat.
Qed.

Lemma apply_ops_emits ps s :
  apply_ops (map Emit ps) s
  = {| queue := queue s ++ ps; finished := finished s; error := error s |}.
Proof.
  unfold apply_ops. revert s. induction ps as [|p ps IH]; intros [q f e]; simpl.
  - by rewrite app_nil_r.
  - rewrite IH. simpl. by rewrite <- app_assoc.
Qed.

Lemma stream_loop_app pre q :
  Forall non_terminal pre ->
  stream_loop None (pre ++ q)
  = let '(frs, rest, ex) := stream_loop None q in (map frame_of pre ++ frs, rest, ex).
Proof.
  induction 1 as [|p pre Hp _ IH].
  - cbn [app map]. by destruct (stream_loop None q) as [[frs rest] ex].
  - cbn [app]. rewrite stream_loop_cons by done. cbv zeta.
    cbn [fmap option_fmap option_map]. rewrite Hp, IH.
    by destruct (stream_loop None q) as [[frs rest] ex].
Qed.

(** X10.  [stream] and events with an odd [type] (line 48).  An event
    without a [type], or with a [type] that is null, a boolean or a
    number, does not end the stream.  A [type] that is a list or a dict
    cannot be looked up in the set: behind events of other types, the
    event is still passed on, then the stream fails with the
    [TypeError], nothing behind the event is taken, and the failure sets
    [finished]. *)
Theorem stream_odd_types s :
  (forall payload,
      (get "type" payload = None -> is_terminal payload = Returns false)
      /\ (forall v, get "type" payload = Some v ->
          match v with JStr _ | JList _ | JDict _ => False | _ => True end ->
          is_terminal payload = Returns false)
      /\ (forall l, get "type" payload = Some (JList l) ->
          is_terminal payload = Raises (Exc TypeError "unhashable type: 'list'"))
      /\ (forall d, get "type" payload = Some (JDict d) ->
          is_terminal payload = Raises (Exc TypeError "unhashable type: 'dict'")))
  /\ (forall pre payload post e,
      queue s = pre ++ payload :: post -> Forall non_terminal pre ->
      is_terminal payload = Raises e ->
      stream None s
      = (map frame_of (pre ++ [payload]),
         {| queue := post; finished := true; error := error s |},
         Failed e)).
Proof.
  split.
  - intros payload. unfold is_terminal. split; [|split; [|split]].
    + by intros ->.
    + intros v ->. by destruct v.
    + by intros l ->.
    + by intros d ->.
  - intros pre payload post e Hq Hpre Ht. unfold stream.
    rewrite Hq, stream_loop_app by done.
    rewrite stream_loop_cons by done. cbv zeta.
    cbn [fmap option_fmap option_map]. rewrite Ht.
    by rewrite map_app.
Qed.

(** X11.  A consumer that is ahead of the worker (lines 43-44).  When
    the queue holds no terminal event, a consumer that stays is given all of
    it and the stream waits, open, with [finished] as it was.  What it is
    given once more events have been emitted is what it would have been
    given from then on had it come late: the frames of a stream do not
    depend on when the consumer reads. *)
Theorem stream_incremental s payloads :
  Forall non_terminal (queue s) ->
  let s1 := {| queue := []; finished := finished s; error := error s |} in
  stream None s = (map frame_of (queue s), s1, Waiting)
  /\ stream None (apply_ops (map Emit payloads) s)
     = (map frame_of (queue s) ++ fst (fst (stream None (apply_ops (map Emit payloads) s1))),
        snd (fst (stream None (apply_ops (map Emit payloads) s1))),
        snd (stream None (apply_ops (map Emit payloads) s1))).
Proof.
  intros H s1. split.
  - unfold stream. by rewrite stream_loop_open.
  - unfold stream. rewrite !apply_ops_emits. subst s1. cbn [queue finished error app].
    rewrite stream_loop_app by done.
    by destruct (stream_loop None payloads) as [[frs rest] ex].
Qed.

(** X12.  A reconnecting consumer (lines 41-51, 108-111).  When a
    consumer goes away before the terminal event was taken, the events behind
    the frames it got are still queued: the stream of a consumer that
    comes next and stays starts with them and stops behind the terminal
    event, so that the two consumers together have got every frame once
    and in order. *)
Theorem stream_resumes s k pre t post :
  queue s = pre ++ t :: post -> Forall non_terminal pre ->
  is_terminal t = Returns true -> (k <= length pre)%nat ->
  exists s1,
    stream (Some k) s = (map frame_of (take k pre), s1, Cancelled)
    /\ queue s1 = drop k pre ++ t :: post
    /\ stream None s1
       = (map frame_of (drop k pre ++ [t]),
          {| queue := post; finished := true; error := error s |}, Stopped)
    /\ map frame_of (take k pre) ++ map frame_of (drop k pre ++ [t])
       = fst (fst (stream None s)).
Proof.
  intros Hq Hpre Ht Hk.
  pose proof (stream_loop_complete pre t post Hpre Ht) as Hfull.
  exists {| queue := drop k pre ++ t :: post; finished := true; error := error s |}.
  split; [|split; [done|split]].
  - unfold stream. rewrite Hq, stream_loop_take, Hfull.
    rewrite length_map, length_app. cbn [length].
    replace (k <=? length pre + 1)%nat with true by (symmetry; apply Nat.leb_le; lia).
    rewrite firstn_map, take_app_le, drop_app_le by lia. done.
  - unfold stream. cbn [queue].
    rewrite (stream_loop_complete (drop k pre) t post); [done| |done].
    by apply Forall_drop.
  - unfold stream. rewrite Hq, Hfull. cbn [fst].
    rewrite <- map_app, app_assoc, take_drop. done.
Qed.

(** *** The session object *)

(** X13.  The flags of a session (lines 35-36, 51, 97).  Nothing clears
    [finished] once it is set, and nothing ever sets [error]: emitting,
    finishing and streaming leave it as it was, so it is [None] for the
    whole life of a session.  Emitting keeps the order: the queue grows
    at its end by the payloads, in the order of the calls. *)
Theorem session_flags ops demand s :
  error (apply_ops ops s) = error s
  /\ (finished s = true -> finished (apply_ops ops s) = true)
  /\ error (snd (fst (stream demand s))) = error s
  /\ (finished s = true -> finished (snd (fst (stream demand s))) = true)
  /\ (forall payloads, queue (apply_ops (map Emit payloads) s) = queue s ++ payloads)
  /\ error new_session = None.
Proof.
  assert (forall ops s, error (apply_ops ops s) = error s
                        /\ (finished s = true -> finished (apply_ops ops s) = true))
    as Hops.
  { unfold apply_ops. induction ops0 as [|op ops0 IH]; intros s0; [done|].
    cbn [fold_left]. destruct (IH (apply_op op s0)) as [He Hf].
    rewrite He. split; [by destruct op|].
    intros Hs. apply Hf. by destruct op. }
  destruct (Hops ops s) as [He Hf].
  split; [done|]. split; [done|].
  unfold stream. destruct (stream_loop demand (queue s)) as [[frs q] ex].
  cbn [fst snd error finished].
  split; [done|]. split; [by destruct ex|]. split; [|done].
  intros payloads. by rewrite apply_ops_emits.
Qed.

(** *** The registry *)

Lemma sound_empty σ : sessions σ = ∅ -> sound σ.
Proof. intros H. split; intros *; by rewrite H, lookup_empty. Qed.

Lemma run_agent_sound run_id σ : sound σ -> sound (snd (run_agent run_id σ)).
Proof.
  intros [Hlt Hinj]. cbn [run_agent snd]. split; cbn [sessions allocated].
  - intros id r Hid. apply lookup_insert_Some in Hid as [[_ <-]|[_ Hid]]; [lia|].
    apply Hlt in Hid. lia.
  - intros id1 id2 r H1 H2.
    apply lookup_insert_Some in H1 as [[<- <-]|[Hne1 H1]];
      apply lookup_insert_Some in H2 as [[<- Hr]|[Hne2 H2]]; try done.
    + apply Hlt in H2. lia.
    + apply Hlt in H1. lia.
    + by eapply Hinj.
Qed.

Lemma on_session_sound r f σ : sound σ -> sound (on_session r f σ).
Proof. by intros [Hlt Hinj]. Qed.

Lemma sessions_pop_sound run_id σ : sound σ -> sound (sessions_pop run_id σ).
Proof.
  intros [Hlt Hinj]. split; cbn [sessions_pop sessions allocated].
  - intros id r [_ H]%lookup_delete_Some. by eapply Hlt.
  - intros id1 id2 r [_ H1]%lookup_delete_Some [_ H2]%lookup_delete_Some.
    by eapply Hinj.
Qed.

Lemma run_worker_sound Agent json_loads request r σ :
  sound σ -> sound (snd (run_worker Agent json_loads request r σ)).
Proof.
  intros H. unfold run_worker. destruct (worker Agent json_loads request) as [res ops].
  by apply on_session_sound.
Qed.

Lemma event_generator_sound run_id r demand σ :
  sound σ -> sound (snd (fst (event_generator run_id r demand σ))).
Proof.
  intros H. unfold event_generator.
  destruct (stream demand (objects σ r)) as [[frs s'] ex].
  destruct ex; cbn [fst snd];
    try apply sessions_pop_sound; by apply on_session_sound.
Qed.

(** *** A run from the request to the last frame *)

Section Runs.
Variable Agent : Z -> Z -> string -> list call * outcome string.
Variable json_loads : string -> option json.

Lemma worker_session request calls result s :
  Agent (fst (agent_args request)) (snd (agent_args request)) (query request)
  = (calls, result) ->
  apply_ops (snd (worker Agent json_loads request)) s
  = {| queue := queue s ++ events_of json_loads calls ++ [terminal_event result];
       finished := true; error := error s |}.
Proof.
  intros HA. rewrite (worker_ops Agent json_loads request calls result HA). cbn [snd].
  unfold apply_ops. rewrite fold_left_app.
  fold (apply_ops (map Emit (events_of json_loads calls)) s).
  rewrite apply_ops_emits. cbn. by rewrite <- app_assoc.
Qed.

(** X14.  A run from [POST /api/run] to the last frame (lines 73-113),
    for every executor and every request.  Once [run_agent] has registered
    the run, its events can be asked for.  When the worker is through,
    the session holds the events of the executor's logger in order,
    then the one terminal event, and [finished] is set.  A consumer
    that stays is given a frame for each of them, in that order; then
    the entry of the run is removed, the queue is empty, and a later
    request for the events is answered with 404. *)
Theorem run_end_to_end request run_id σ calls result :
  Agent (fst (agent_args request)) (snd (agent_args request)) (query request)
  = (calls, result) ->
  let r := fst (run_agent run_id σ) in
  let σ1 := snd (run_agent run_id σ) in
  let σ2 := snd (run_worker Agent json_loads request r σ1) in
  let evs := events_of json_loads calls ++ [terminal_event result] in
  stream_events run_id σ1 = EventSourceResponse run_id r
  /\ stream_events run_id σ2 = EventSourceResponse run_id r
  /\ objects σ2 r = {| queue := evs; finished := true; error := None |}
  /\ exists σ3,
      event_generator run_id r None σ2
      = (map Yield (map frame_of evs) ++ [Pop run_id], σ3, Stopped)
      /\ objects σ3 r = {| queue := []; finished := true; error := None |}
      /\ sessions σ3 = delete run_id (sessions σ)
      /\ stream_events run_id σ3 = HTTPException 404 "Run not found".
Proof.
  intros HA r σ1 σ2 evs.
  assert (objects σ2 r = {| queue := evs; finished := true; error := None |}) as Hobj.
  { subst σ2 σ1 r. unfold run_worker.
    destruct (worker Agent json_loads request) as [res ops] eqn:Hw.
    cbn [snd fst run_agent on_session objects].
    rewrite fn_lookup_alter, fn_lookup_insert.
    replace ops with (snd (worker Agent json_loads request)) by (by rewrite Hw).
    by rewrite (worker_session request calls result new_session HA). }
  assert (sessions σ2 = <[run_id := r]> (sessions σ)) as Hsess.
  { subst σ2 σ1 r. unfold run_worker.
    by destruct (worker Agent json_loads request) as [res ops]. }
  split; [|split; [|split; [done|]]].
  - unfold stream_events. subst σ1 r. cbn. by rewrite lookup_insert_eq.
  - unfold stream_events. by rewrite Hsess, lookup_insert_eq.
  - unfold event_generator. rewrite Hobj. unfold stream. cbn [queue].
    subst evs.
    rewrite (stream_loop_complete (events_of json_loads calls) (terminal_event result) []);
      [|apply events_of_not_terminal | by destruct result].
    eexists. split; [reflexivity|].
    cbn [objects sessions sessions_pop on_session finished error].
    split; [by rewrite fn_lookup_alter|].
    split; [by rewrite Hsess, delete_insert_eq|].
    unfold stream_events. cbn. by rewrite lookup_delete_eq.
Qed.

(** X15.  [run_agent] (lines 75-78) keeps the registry sound.  The run
    is registered under its id with a session of its own that is new: an
    empty queue, [finished] not set, no error.  Every other run keeps
    its entry and its session object, which is another one than that of
    the new run. *)
Theorem run_agent_registers run_id σ :
  sound σ ->
  let r := fst (run_agent run_id σ) in
  let σ' := snd (run_agent run_id σ) in
  sound σ'
  /\ sessions σ' !! run_id = Some r
  /\ objects σ' r = new_session
  /\ (forall id r', id <> run_id -> sessions σ !! id = Some r' ->
        sessions σ' !! id = Some r' /\ r' <> r /\ objects σ' r' = objects σ r').
Proof.
  intros Hsound r σ'. subst r σ'.
  split; [by apply run_agent_sound|].
  destruct Hsound as [Hlt Hinj]. cbn [run_agent fst snd].
  split; [|split].
  - cbn. by rewrite lookup_insert_eq.
  - cbn. by rewrite fn_lookup_insert.
  - intros id r' Hne Hid. cbn [sessions objects].
    pose proof (Hlt id r' Hid) as Hr'.
    split; [by rewrite lookup_insert_ne|]. split; [lia|].
    rewrite fn_lookup_insert_ne by lia. done.
Qed.

(** X16.  Runs do not interfere (lines 80-97, 108-111).  The worker of
    a run touches nothing but the session object of its run; the stream of a
    run touches nothing but that object and the entry of the run.  So,
    in a sound registry, another registered run keeps its entry and its
    session as they are, and the registry stays sound. *)
Theorem runs_do_not_interfere request run_id r demand σ :
  let σw := snd (run_worker Agent json_loads request r σ) in
  let σg := snd (fst (event_generator run_id r demand σ)) in
  sessions σw = sessions σ
  /\ (forall r', r' <> r -> objects σw r' = objects σ r' /\ objects σg r' = objects σ r')
  /\ (forall id, id <> run_id -> sessions σg !! id = sessions σ !! id)
  /\ (sound σ -> sound σw /\ sound σg)
  /\ (sound σ -> sessions σ !! run_id = Some r ->
      forall id' r', id' <> run_id -> sessions σ !! id' = Some r' ->
        sessions σw !! id' = Some r' /\ objects σw r' = objects σ r'
        /\ sessions σg !! id' = Some r' /\ objects σg r' = objects σ r').
Proof.
  intros σw σg.
  assert (sessions σw = sessions σ /\ allocated σw = allocated σ
          /\ forall r', r' <> r -> objects σw r' = objects σ r') as (Hws & Hwa & Hwo).
  { subst σw. unfold run_worker.
    destruct (worker Agent json_loads request) as [res ops]. cbn.
    split; [done|]. split; [done|]. intros r' Hr'. by rewrite fn_lookup_alter_ne. }
  assert ((sessions σg = sessions σ \/ sessions σg = delete run_id (sessions σ))
          /\ allocated σg = allocated σ
          /\ forall r', r' <> r -> objects σg r' = objects σ r') as (Hgs & Hga & Hgo).
  { subst σg. unfold event_generator.
    destruct (stream demand (objects σ r)) as [[frs s'] ex].
    destruct ex; cbn; (split; [by auto|]); (split; [done|]);
      intros r' Hr'; by rewrite fn_lookup_alter_ne. }
  assert (forall id, id <> run_id -> sessions σg !! id = sessions σ !! id) as Hgl.
  { intros id Hid. destruct Hgs as [->| ->]; [done|]. by rewrite lookup_delete_ne. }
  assert (sound σ -> sound σw /\ sound σg) as Hsound.
  { intros H. split; [by apply run_worker_sound | by apply event_generator_sound]. }
  split; [done|]. split; [by auto|]. split; [done|]. split; [done|].
  intros [Hlt Hinj] Hr id' r' Hne Hid'.
  assert (r' <> r) as Hrr by (intros ->; by apply Hne, (Hinj id' run_id r)).
  rewrite Hws, Hgl, Hwo, Hgo by done. done.
Qed.

End Runs.

Lemma frames_of_yields frs : frames_of (map Yield frs) = frs.
Proof. unfold frames_of. induction frs as [|f frs IH]; [done|]. cbn. by f_equal. Qed.

Lemma frames_of_yields_pop frs run_id : frames_of (map Yield frs ++ [Pop run_id]) = frs.
Proof.
  unfold frames_of. rewrite omap_app. cbn. rewrite app_nil_r. apply frames_of_yields.
Qed.

Lemma last_yields frs run_id : last (map Yield frs) <> Some (Pop run_id).
Proof.
  induction frs as [|f [|g frs] IH]; [done|done|].
  exact IH.
Qed.

Lemma stream_loop_cancelled demand q frs rest ex :
  stream_loop demand q = (frs, rest, ex) ->
  ex = Cancelled <-> demand = Some (length frs).
Proof.
  intros H. split.
  - intros ->. apply stream_loop_shape in H as (evs & _ & -> & Hk & _).
    by rewrite length_map.
  - intros ->. rewrite stream_loop_take in H.
    destruct (stream_loop None q) as [[frsN restN] exN].
    destruct (length frs <=? length frsN)%nat eqn:E.
    + by injection H as _ _ <-.
    + injection H as -> _ _. apply Nat.leb_gt in E. lia.
Qed.

(** X17.  The life of a registry entry (lines 104-111).  The entry of a
    run is removed by the stream of its events, as the last action, and
    only by one that passed on a terminal frame and was asked for more:
    from then on the events are answered with 404.  Every other end
    leaves the registry as it is, and the events can be asked for again:
    a stream that waits, one that failed, and one whose consumer went
    away, be it with the terminal frame in hand. *)
Theorem registry_entry_lifetime run_id r demand σ :
  sessions σ !! run_id = Some r ->
  let actions := fst (fst (event_generator run_id r demand σ)) in
  let σ' := snd (fst (event_generator run_id r demand σ)) in
  let ex := snd (event_generator run_id r demand σ) in
  (ex = Stopped <-> stream_events run_id σ' = HTTPException 404 "Run not found")
  /\ (ex = Stopped <-> last actions = Some (Pop run_id))
  /\ (ex <> Stopped ->
      sessions σ' = sessions σ /\ stream_events run_id σ' = EventSourceResponse run_id r)
  /\ (ex = Cancelled <-> demand = Some (length (frames_of actions)))
  /\ (ex = Stopped ->
      exists pre t, frames_of actions = map frame_of (pre ++ [t])
                    /\ Forall non_terminal pre /\ is_terminal t = Returns true).
Proof.
  intros Hr actions σ' ex. subst actions σ' ex. unfold event_generator.
  destruct (stream demand (objects σ r)) as [[frs s'] ex] eqn:Hs.
  assert (ex = Cancelled <-> demand = Some (length frs)) as Hc.
  { unfold stream in Hs.
    destruct (stream_loop demand (queue (objects σ r))) as [[frs1 q1] ex1] eqn:Hl.
    injection Hs as <- _ <-. by eapply stream_loop_cancelled. }
  destruct (stream_yielded _ _ _ _ _ Hs) as (evs & _ & _ & Hf & Hshape & _).
  assert (stream_events run_id (on_session r (fun _ => s') σ)
          = EventSourceResponse run_id r) as Hkeep.
  { unfold stream_events. cbn. by rewrite Hr. }
  assert (stream_events run_id (sessions_pop run_id (on_session r (fun _ => s') σ))
          = HTTPException 404 "Run not found") as Hgone.
  { unfold stream_events. cbn. by rewrite lookup_delete_eq. }
  destruct ex; cbn [fst snd].
  - rewrite frames_of_yields_pop, last_snoc, Hgone.
    split; [done|]. split; [done|]. split; [done|]. split; [|].
    + split; [done|]. intros Hd. by apply Hc in Hd.
    + intros _. destruct Hshape as (pre & t & -> & Hpre & Ht). by exists pre, t.
  - rewrite frames_of_yields, Hkeep.
    split; [done|]. split; [split; [done|]; intros H; by apply last_yields in H|].
    split; [done|]. split; [done|done].
  - rewrite frames_of_yields, Hkeep.
    split; [done|]. split; [split; [done|]; intros H; by apply last_yields in H|].
    split; [done|]. split; [|done].
    split; [done|]. intros Hd. by apply Hc in Hd.
  - rewrite frames_of_yields, Hkeep.
    split; [done|]. split; [split; [done|]; intros H; by apply last_yields in H|].
    split; [done|]. split; [|done].
    split; [done|]. intros Hd. by apply Hc in Hd.
Qed.

(** *** The text of a frame *)

Lemma one_line_app s t : one_line (s +:+ t) = one_line s && one_line t.
Proof. unfold one_line. by rewrite StrFacts.to_bytes_app, forallb_app. Qed.

Lemma one_line_join sep parts :
  one_line sep = true -> Forall (fun p => one_line p = true) parts ->
  one_line (join sep parts) = true.
Proof.
  intros Hsep. induction 1 as [|x parts Hx Hparts IH]; [done|].
  destruct parts as [|y parts]; [done|].
  change (join sep (x :: y :: parts)) with (x +:+ sep +:+ join sep (y :: parts)).
  by rewrite !one_line_app, Hx, Hsep, IH.
Qed.

Lemma one_line_digits x s : one_line s = true -> one_line (pretty_N_go x s) = true.
Proof.
  revert s. induction (N.lt_wf_0 x) as [x _ IH]; intros s Hs.
  assert (x = 0 \/ 0 < x)%N as [->|Hx] by lia.
  - by rewrite pretty_N_go_0.
  - rewrite pretty_N_go_step by done. apply IH; [by apply N.div_lt|].
    unfold one_line. cbn [Str.to_bytes list_ascii_of_string forallb].
    fold (Str.to_bytes s). fold (one_line s). rewrite Hs, andb_true_r.
    unfold pretty_N_char. by repeat case_match.
Qed.

Lemma one_line_int (z : Z) : one_line (pretty z) = true.
Proof.
  assert (forall n : N, one_line (pretty n) = true) as HN.
  { intros n. unfold pretty, pretty_N. case_decide; [done|].
    by apply one_line_digits. }
  destruct z as [|p|p]; [done|..].
  - apply (HN (Npos p)).
  - change (pretty (Zneg p)) with ("-" +:+ pretty (Npos p)).
    by rewrite one_line_app, HN.
Qed.

Lemma one_line_string s : one_line (encode_basestring false s) = true.
Proof.
  unfold encode_basestring.
  change (String quote ?t) with (String quote EmptyString +:+ t).
  rewrite !one_line_app. unfold one_line at 2. rewrite StrFacts.to_of_bytes.
  replace (forallb _ (flat_map escape_char (Str.to_bytes s))) with true; [done|].
  symmetry. induction (Str.to_bytes s) as [|c l IH]; [done|].
  cbn [flat_map]. rewrite forallb_app, IH, andb_true_r.
  by destruct c as [[] [] [] [] [] [] [] []].
Qed.

Lemma dumps_one_line v : plain_floats v = true -> one_line (dumps false v) = true.
Proof.
  induction v as [|b|z|r|s|l IH|d IH] using JsonFacts.json_rect'; intros Hv.
  - done.
  - by destruct b.
  - apply one_line_int.
  - done.
  - apply one_line_string.
  - cbn [dumps]. rewrite !one_line_app. cbn [plain_floats] in Hv.
    rewrite one_line_join; [done|done|].
    induction IH as [|v l Hl _ IHl]; [done|].
    cbn [forallb] in Hv. apply andb_true_iff in Hv as [Hv1 Hv2].
    cbn [map]. constructor; [by apply Hl | by apply IHl].
  - cbn [dumps]. rewrite !one_line_app. cbn [plain_floats] in Hv.
    rewrite one_line_join; [done|done|].
    induction IH as [|[k v] d Hd _ IHd]; [done|].
    cbn [forallb] in Hv. apply andb_true_iff in Hv as [Hv1 Hv2].
    cbn [map fst snd]. cbn [fst snd] in Hd, Hv1. constructor; [|by apply IHd].
    by rewrite !one_line_app, one_line_string, Hd.
Qed.

(** X18.  A frame is one line (line 46).  Whatever the keys and the
    texts of an event hold, line breaks and other control characters
    among them, the data of its frame holds no control character: the
    encoder writes them as escapes.  So an event never spreads over
    several lines of the stream.  The floats of the event are taken to
    be spelled as [repr] spells them, without control characters. *)
Theorem frames_one_line payload :
  plain_floats (JDict payload) = true ->
  one_line (data (frame_of payload)) = true
  /\ forall c, In c (Str.to_bytes (data (frame_of payload))) ->
       N_of_ascii c <> 10%N /\ N_of_ascii c <> 13%N.
Proof.
  intros H. pose proof (dumps_one_line (JDict payload) H) as Hone.
  split; [exact Hone|]. intros c Hc.
  unfold one_line in Hone. rewrite forallb_forall in Hone.
  apply Hone in Hc. apply N.leb_le in Hc. lia.
Qed.

(** *** The properties at work *)

Lemma stream_odd_types_witness :
  is_terminal untold = Returns false
  /\ stream None (session_of [log_event "thinking"; odd_event; done_event "42"])
     = ([frame_of (log_event "thinking"); frame_of odd_event],
        {| queue := [done_event "42"]; finished := true; error := None |},
        Failed (Exc TypeError "unhashable type: 'list'")).
Proof.
  destruct (stream_odd_types
              (session_of [log_event "thinking"; odd_event; done_event "42"]))
    as [Hty Hfail].
  split.
  - apply (proj1 (Hty untold)). reflexivity.
  - apply (Hfail [log_event "thinking"] odd_event [done_event "42"]);
      [reflexivity | by repeat constructor | reflexivity].
Defined.

Lemma stream_incremental_witness :
  stream None (apply_ops (map Emit [done_event "42"]) (session_of [log_event "thinking"]))
  = ([frame_of (log_event "thinking"); frame_of (done_event "42")],
     {| queue := []; finished := true; error := None |}, Stopped).
Proof.
  etrans.
  - apply (proj2 (stream_incremental (session_of [log_event "thinking"])
                    [done_event "42"] ltac:(by repeat constructor))).
  - reflexivity.
Defined.

Lemma stream_resumes_witness :
  exists s1,
    stream (Some 1%nat)
           (session_of [log_event "thinking"; log_event "searching"; done_event "42";
                        log_event "late"])
    = ([frame_of (log_event "thinking")], s1, Cancelled)
    /\ stream None s1
       = ([frame_of (log_event "searching"); frame_of (done_event "42")],
          {| queue := [log_event "late"]; finished := true; error := None |}, Stopped).
Proof.
  destruct (stream_resumes
              (session_of [log_event "thinking"; log_event "searching"; done_event "42";
                           log_event "late"])
              1 [log_event "thinking"; log_event "searching"] (done_event "42")
              [log_event "late"] eq_refl ltac:(by repeat constructor) eq_refl
              ltac:(cbn; lia))
    as (s1 & H1 & _ & H2 & _).
  exists s1. split; [exact H1 | exact H2].
Defined.

Lemma session_flags_witness :
  error (apply_ops [Emit (log_event "thinking"); SetFinished] new_session) = None
  /\ finished (apply_ops [Emit (log_event "late")]
                 {| queue := []; finished := true; error := None |}) = true.
Proof.
  split.
  - apply (proj1 (session_flags [Emit (log_event "thinking"); SetFinished] None
                    new_session)).
  - apply (proj1 (proj2 (session_flags [Emit (log_event "late")] None
                           {| queue := []; finished := true; error := None |}))).
    reflexivity.
Defined.

Lemma run_end_to_end_witness :
  stream_events "run-1" served = EventSourceResponse "run-1" 0
  /\ exists σ3,
      event_generator "run-1" 0 None served
      = ([Yield (frame_of [("type", JStr "header"); ("message", JStr "Plan")]);
          Yield (frame_of [("type", JStr "tool_run"); ("tool", JStr "search");
                           ("result", JStr "null")]);
          Yield (frame_of [("type", JStr "done"); ("answer", JStr "42")]);
          Pop "run-1"], σ3, Stopped)
      /\ stream_events "run-1" σ3 = HTTPException 404 "Run not found".
Proof.
  destruct (run_end_to_end planner (loads no_float) (ask "6 x 7?") "run-1" empty_server
              [Header "Plan"; ToolRun "search" "null"] (Returns "42") eq_refl)
    as (_ & H2 & _ & σ3 & H4 & _ & _ & H7).
  split; [exact H2|]. exists σ3. split; [exact H4 | exact H7].
Defined.

Lemma run_agent_registers_witness :
  sound (snd (run_agent "run-1" empty_server))
  /\ sessions (snd (run_agent "run-1" empty_server)) !! "run-1" = Some 0%nat
  /\ objects (snd (run_agent "run-1" empty_server)) 0%nat = new_session.
Proof.
  destruct (run_agent_registers "run-1" empty_server (sound_empty empty_server eq_refl))
    as (H1 & H2 & H3 & _).
  split; [exact H1|]. split; [exact H2 | exact H3].
Defined.

Lemma sound_two_runs : sound two_runs.
Proof.
  apply run_agent_sound, run_worker_sound, run_agent_sound, sound_empty. reflexivity.
Qed.

Lemma runs_do_not_interfere_witness :
  let σg := snd (fst (event_generator "run-1" 0 None two_runs)) in
  sessions σg !! "run-1" = None
  /\ sessions σg !! "run-2" = Some 1%nat
  /\ objects σg 1%nat = objects two_runs 1%nat.
Proof.
  intros σg.
  destruct (runs_do_not_interfere planner (loads no_float) (ask "6 x 7?")
              "run-1" 0 None two_runs) as (_ & _ & _ & _ & H).
  destruct (H sound_two_runs ltac:(by vm_compute) "run-2" 1%nat ltac:(discriminate)
              ltac:(by vm_compute)) as (_ & _ & H1 & H2).
  split; [by vm_compute|]. split; [exact H1 | exact H2].
Defined.

Lemma frames_one_line_witness :
  one_line two_lines = false
  /\ one_line (data (frame_of (log_event two_lines))) = true.
Proof.
  split; [reflexivity|].
  apply (proj1 (frames_one_line (log_event two_lines) eq_refl)).
Defined.

Lemma registry_entry_lifetime_witness :
  snd (event_generator "run-1" 0 (Some 3%nat) served) = Cancelled
  /\ stream_events "run-1" (snd (fst (event_generator "run-1" 0 (Some 3%nat) served)))
     = EventSourceResponse "run-1" 0.
Proof.
  destruct (registry_entry_lifetime "run-1" 0 (Some 3%nat) served ltac:(by vm_compute))
    as (_ & _ & Hkeep & Hc & _).
  assert (snd (event_generator "run-1" 0 (Some 3%nat) served) = Cancelled) as H.
  { apply Hc. by vm_compute. }
  split; [exact H|]. apply Hkeep. rewrite H. discriminate.
Defined.
End ServerProps.
